(** * Intern tracker: the roster model of both page variants

    A shallow embedding of the pure logic of the two [Index] pages:

    - variant A, the tracker ([src/unnamed/part_000]): module [Tracker];
    - variant B, the CRUD page ([src/client/pages/Index.tsx]): module [Crud].

    The JavaScript primitives both pages use are gathered in module [JS].
    Definitions come first; the lemmas about them follow the three
    modules. *)

From Stdlib Require Import ZArith QArith Qround Qabs Qpower.
From Stdlib Require Import List String Ascii Bool Lia Lqa.
From Stdlib Require Import Numbers.DecimalString Numbers.DecimalZ.
Import ListNotations.

Open Scope Z_scope.

(* ================================================================== *)
(** * JavaScript primitives *)
(* ================================================================== *)

Module JS.

(** ** Strings

    A JavaScript string is a sequence of UTF-16 code units.  It is modelled
    by [string], one [ascii] per code unit, which covers the strings whose
    code units are below 256 (ASCII and Latin-1).  Functions that do not
    depend on the alphabet ([stringToHue]) are also given over lists of
    arbitrary code units. *)

(** [s.charCodeAt(i)] for the code unit [c] found at position [i]. *)
Definition charCode (c : ascii) : Z := Z.of_N (N_of_ascii c).

(** The code units of a string, in order. *)
Definition charCodes (s : string) : list Z :=
  List.map charCode (list_ascii_of_string s).

(** The double quote and the line feed, as code units and as strings. *)
Definition dquote : ascii := "034"%char.
Definition linefeed : ascii := "010"%char.
Definition DQ : string := String dquote EmptyString.
Definition LF : string := String linefeed EmptyString.

(** Truthiness of a string: only the empty string is falsy. *)
Definition truthy (s : string) : bool := negb (String.eqb s EmptyString).

(** [a || b] on strings. *)
Definition or_else (a b : string) : string := if truthy a then a else b.

(** [a ?? b] on a nullable string. *)
Definition nullish (a : option string) (b : string) : string :=
  match a with Some s => s | None => b end.

(** [String.prototype.toLowerCase] on one code unit below 256: the upper
    case letters are A-Z and, in Latin-1, U+00C0-U+00DE without the
    multiplication sign U+00D7; each is 32 below its lower case form. *)
Definition lower_char (c : ascii) : ascii :=
  let n := N_of_ascii c in
  if ((65 <=? n) && (n <=? 90))%N
     || ((192 <=? n) && (n <=? 222) && negb (n =? 215))%N
  then ascii_of_N (n + 32)
  else c.

Fixpoint toLowerCase (s : string) : string :=
  match s with
  | EmptyString => EmptyString
  | String c r => String (lower_char c) (toLowerCase r)
  end.

(** White space and line terminators below 256: TAB, LF, VT, FF, CR,
    SPACE and NO-BREAK SPACE. *)
Definition is_space (c : ascii) : bool :=
  let n := N_of_ascii c in
  ((9 <=? n) && (n <=? 13) || (n =? 32) || (n =? 160))%N.

Fixpoint trimStart (s : string) : string :=
  match s with
  | EmptyString => EmptyString
  | String c r => if is_space c then trimStart r else s
  end.

Fixpoint trimEnd (s : string) : string :=
  match s with
  | EmptyString => EmptyString
  | String c r =>
      match trimEnd r with
      | EmptyString => if is_space c then EmptyString else String c EmptyString
      | r' => String c r'
      end
  end.

(** [s.trim()]. *)
Definition trim (s : string) : string := trimEnd (trimStart s).

(** [s.includes(q)]: [q] occurs in [s] as a contiguous substring. *)
Fixpoint includes (s q : string) : bool :=
  if String.prefix q s then true
  else match s with
       | EmptyString => false
       | String _ r => includes r q
       end.

(** [s.replaceAll(c, rep)] for a pattern [c] of one code unit and a
    replacement [rep] without [$] patterns. *)
Fixpoint replaceAll (s : string) (c : ascii) (rep : string) : string :=
  match s with
  | EmptyString => EmptyString
  | String d r =>
      if Ascii.eqb d c then (rep ++ replaceAll r c rep)%string
      else String d (replaceAll r c rep)
  end.

(** [a.join(sep)] on an array of strings. *)
Definition join (sep : string) (a : list string) : string :=
  String.concat sep a.

(** ** Numbers

    Integral numbers are modelled by [Z], fractional ones by [Q]: every
    finite double is a rational, and [Math.floor], [Math.ceil],
    [Math.round], [Math.min], [Math.max] and the comparisons are exact on
    doubles.  Sums and differences of integers are exact below 2^53.
    Where a page adds or divides numbers that need not be integers, the
    numbers are the doubles of the section on doubles below, with their
    rounding. *)

(** [String(n)] for an integral number (decimal notation, which is what
    JavaScript prints below 10^21). *)
Definition String_number (n : Z) : string :=
  NilZero.string_of_int (Z.to_int n).

Definition Math_floor (x : Q) : Z := Qfloor x.
Definition Math_ceil (x : Q) : Z := Qceiling x.

(** [Math.round]: the nearest integer, a tie going up. *)
Definition Math_round (x : Q) : Z := Qfloor (x + (1 # 2)).

Definition Math_max (a b : Z) : Z := Z.max a b.
Definition Math_min (a b : Z) : Z := Z.min a b.
Definition Math_abs (a : Z) : Z := Z.abs a.

(** [a > b] on fractional numbers. *)
Definition gt (a b : Q) : bool := negb (Qle_bool a b).

(** [ToInt32]: the integer modulo 2^32, read as a signed 32-bit value. *)
Definition ToInt32 (x : Z) : Z :=
  let m := x mod 2 ^ 32 in
  if m <? 2 ^ 31 then m else m - 2 ^ 32.

(** [x << k]: both operands go through [ToInt32], the shift count is taken
    modulo 32 and the result is again a signed 32-bit value. *)
Definition shl (x k : Z) : Z :=
  ToInt32 (Z.shiftl (ToInt32 x) (ToInt32 k mod 32)).

(** [a % b] on integral numbers: the remainder has the sign of [a]. *)
Definition rem (a b : Z) : Z := Z.rem a b.

(** ** Arrays *)

(** [a.slice(start, end)]: a negative index counts from the end, and both
    indices are brought into [0, a.length]. *)
Definition slice {A : Type} (a : list A) (start stop : Z) : list A :=
  let len := Z.of_nat (List.length a) in
  let k := if start <? 0 then Z.max (len + start) 0 else Z.min start len in
  let final := if stop <? 0 then Z.max (len + stop) 0 else Z.min stop len in
  firstn (Z.to_nat (final - k)) (skipn (Z.to_nat k) a).

(** ** More of strings: split and toUpperCase *)

(** [s.split(sep)] for a separator [sep] of one code unit: the pieces
    between the separators, empty ones included; the empty string gives
    one empty piece. *)
Fixpoint split (s : string) (sep : ascii) : list string :=
  match s with
  | EmptyString => [EmptyString]
  | String c r =>
      if Ascii.eqb c sep then EmptyString :: split r sep
      else match split r sep with
           | piece :: pieces => String c piece :: pieces
           | [] => [String c EmptyString]
           end
  end.

(** [n[0]]: the first code unit of a string, undefined for the empty
    string. *)
Definition first_char (n : string) : option ascii :=
  match n with
  | EmptyString => None
  | String c _ => Some c
  end.

(** [a.filter(Boolean)] on an array of one-unit strings and undefined:
    undefined goes, a string of one code unit is truthy and stays. *)
Fixpoint filter_Boolean (a : list (option ascii)) : list ascii :=
  match a with
  | [] => []
  | Some c :: rest => c :: filter_Boolean rest
  | None :: rest => filter_Boolean rest
  end.

(** [String.prototype.toUpperCase] on one code unit below 256.  The result
    is given as code units, for it leaves the range: the micro sign becomes
    U+039C, the sharp s becomes two letters S, the y with diaeresis becomes
    U+0178; a-z and U+00E0-U+00FE without the division sign U+00F7 go 32
    down; the rest stays. *)
Definition upper_char (c : ascii) : list Z :=
  let n := Z.of_N (N_of_ascii c) in
  if (97 <=? n) && (n <=? 122) then [n - 32]
  else if n =? 181 then [924]
  else if n =? 223 then [83; 83]
  else if (224 <=? n) && (n <=? 254) && negb (n =? 247) then [n - 32]
  else if n =? 255 then [376]
  else [n].

(** [s.toUpperCase()], as the code units of the result. *)
Fixpoint toUpperCase (s : string) : list Z :=
  match s with
  | EmptyString => []
  | String c r => upper_char c ++ toUpperCase r
  end.

(** ** Doubles

    A number is an IEEE 754 double.  A finite one is modelled by the
    rational it denotes; the two infinities and NaN stand next to them.
    The sign of zero is left out: the pages print zero the same with
    either sign, compare numbers by value and never divide by a number
    that can be zero.  An operation on doubles is the exact operation on
    the rationals followed by [round64]. *)

Inductive number : Type :=
| Finite (q : Q)
| Infinity
| NegInfinity
| NaN.

Definition pow2 (k : Z) : Q := (2 ^ k)%Q.

(** For [0 < a], the exponent [e] with [2^e <= a < 2^(e+1)]. *)
Definition floor_log2 (a : Q) : Z :=
  let e0 := Z.log2 (Qnum a) - Z.log2 (Z.pos (Qden a)) in
  if Qle_bool (pow2 e0) a then e0 else e0 - 1.

(** The integer nearest to [m], a tie going to the even one. *)
Definition round_half_even (m : Q) : Z :=
  let f := Qfloor m in
  match (m - inject_Z f ?= 1 # 2)%Q with
  | Lt => f
  | Gt => f + 1
  | Eq => if Z.even f then f else f + 1
  end.

(** The double nearest to the real [x0], a tie going to the even
    significand: a multiple of [2^(e-52)] where [2^e <= |x0| < 2^(e+1)],
    a multiple of [2^-1074] below [2^-1022], and the infinity of the sign
    of [x0] when the nearest multiple reaches [2^1024]. *)
Definition round64 (x0 : Q) : number :=
  let x := Qred x0 in
  if Qeq_bool x 0 then Finite 0
  else
    let e := Z.max (floor_log2 (Qabs x)) (-1022) in
    let ulp := pow2 (e - 52) in
    let y := (inject_Z (round_half_even (x / ulp)) * ulp)%Q in
    if Qle_bool (pow2 1024) (Qabs y)
    then (if Qle_bool 0 x then Infinity else NegInfinity)
    else Finite (Qred y).

(** [a + b] on numbers. *)
Definition fl_add (a b : number) : number :=
  match a, b with
  | NaN, _ | _, NaN => NaN
  | Infinity, NegInfinity | NegInfinity, Infinity => NaN
  | Infinity, _ | _, Infinity => Infinity
  | NegInfinity, _ | _, NegInfinity => NegInfinity
  | Finite x, Finite y => round64 (x + y)
  end.

(** [a / b] on numbers, for a finite [b]; a zero [b] is the positive
    zero. *)
Definition fl_div (a : number) (b : Q) : number :=
  match a with
  | Finite x =>
      if Qeq_bool b 0
      then match (x ?= 0)%Q with
           | Eq => NaN
           | Gt => Infinity
           | Lt => NegInfinity
           end
      else round64 (x / b)
  | Infinity => if Qle_bool 0 b then Infinity else NegInfinity
  | NegInfinity => if Qle_bool 0 b then NegInfinity else Infinity
  | NaN => NaN
  end.

(** [Math.round] on numbers: the nearest integer, a tie going up; the
    result is a double, for a double from 2^52 on is an integer.  The
    infinities and NaN are returned as they are. *)
Definition Math_round_number (a : number) : number :=
  match a with
  | Finite x => Finite (inject_Z (Math_round x))
  | other => other
  end.

(** ** String(x) for a double

    [String(x)] prints the shortest decimal that reads back as [x]: digits
    [s], their number [k] and the place [n] of the decimal point, with
    [10^(k-1) <= s < 10^k] and [s * 10^(n-k)] rounding to [x]; of the
    decimals of [k] digits that do, the one nearest to [x]. *)

(** [x * 10^k] for an integer [k] of either sign. *)
Definition times_pow10 (x : Q) (k : Z) : Q :=
  if 0 <=? k then (x * inject_Z (10 ^ k))%Q
  else (x / inject_Z (10 ^ (- k)))%Q.

(** The least [n' >= n] with [x < 10^n'], within [fuel] steps. *)
Fixpoint decimal_point_from (fuel : nat) (x : Q) (n : Z) : Z :=
  match fuel with
  | O => n
  | S fuel' =>
      if Qle_bool 1 (times_pow10 x (- n))
      then decimal_point_from fuel' x (n + 1)
      else n
  end.

(** For [0 < x], the [n] with [10^(n-1) <= x < 10^n].  The search starts
    from an estimate by the binary exponent [e] of [x], which is below [n]
    by four at most: [e * 0.30102 - 1]. *)
Definition decimal_point (x : Q) : Z :=
  let e := floor_log2 x in
  let n0 := (e * 30102) / 100000 - 1 in
  decimal_point_from 4 x n0.

(** The decimal [s * 10^(n-k)] reads back as the double [x]. *)
Definition reads_back (x : Q) (s n k : Z) : bool :=
  match round64 (times_pow10 (inject_Z s) (n - k)) with
  | Finite y => Qeq_bool y x
  | _ => false
  end.

(** The digits of length [k] for [x], if there are: of the two decimals of
    [k] digits around [x], the one that reads back as [x], the nearer one
    when both do. *)
Definition digits_of_length (x : Q) (n k : Z) : option Z :=
  let m := times_pow10 x (k - n) in
  let lo := Qfloor m in
  let hi := lo + 1 in
  let ok_lo := reads_back x lo n k in
  let ok_hi := reads_back x hi n k in
  if ok_lo && ok_hi then
    match (m - inject_Z lo ?= inject_Z hi - m)%Q with
    | Lt => Some lo
    | Gt => Some hi
    | Eq => Some (if Z.even lo then lo else hi)
    end
  else if ok_lo then Some lo
  else if ok_hi then Some hi
  else None.

(** The shortest digits: the first length from [k] on that has digits.  A
    double has digits of length 17 at most, what the fuel allows for. *)
Fixpoint shortest_digits (fuel : nat) (x : Q) (n k : Z) : Z * Z * Z :=
  match fuel with
  | O => (Qfloor (times_pow10 x (k - n)), n, k)
  | S fuel' =>
      match digits_of_length x n k with
      | Some s => if s =? 10 ^ k then (1, n + 1, 1) else (s, n, k)
      | None => shortest_digits fuel' x n (k + 1)
      end
  end.

Fixpoint zeros (n : nat) : string :=
  match n with
  | O => EmptyString
  | S n' => String "0" (zeros n')
  end.

(** [String(x)] for a double [0 < x]: the digits alone, with a point or
    after [0.] and zeros when [-5 <= n <= 21], the exponent notation
    otherwise. *)
Definition String_positive_double (x : Q) : string :=
  let '(s, n, k) := shortest_digits 17 x (decimal_point x) 1 in
  let digits := String_number s in
  if (-5 <=? n) && (n <=? 21) then
    if k <=? n then (digits ++ zeros (Z.to_nat (n - k)))%string
    else if 0 <? n then
      (substring 0 (Z.to_nat n) digits ++ "."
       ++ substring (Z.to_nat n) (Z.to_nat (k - n)) digits)%string
    else ("0." ++ zeros (Z.to_nat (- n)) ++ digits)%string
  else
    let e := n - 1 in
    let sign := if 0 <=? e then "+"%string else "-"%string in
    let exponent := (sign ++ String_number (Z.abs e))%string in
    if k =? 1 then (digits ++ "e" ++ exponent)%string
    else (substring 0 1 digits ++ "."
          ++ substring 1 (Z.to_nat (k - 1)) digits ++ "e" ++ exponent)%string.

(** [String(x)] for a finite double [x]. *)
Definition String_double (x : Q) : string :=
  match (x ?= 0)%Q with
  | Eq => "0"
  | Gt => String_positive_double x
  | Lt => ("-" ++ String_positive_double (- x))%string
  end.

End JS.

(* ================================================================== *)
(** * The environment: random numbers and the clock *)
(* ================================================================== *)

Module Env.

(** [Math.random()] and [Date.now()] read the outside world.  The world is
    the sequence of values the future calls will return; a call takes the
    head of its sequence and leaves the tail. *)
Record World : Type := mkWorld {
  randoms : nat -> Q;     (* results of the calls of Math.random *)
  clock : nat -> Z        (* results of the calls of Date.now *)
}.

(** A computation that reads the world and returns a value. *)
Definition M (A : Type) : Type := World -> A * World.

Definition ret {A : Type} (a : A) : M A := fun w => (a, w).

Definition bind {A B : Type} (m : M A) (k : A -> M B) : M B :=
  fun w => let (a, w') := m w in k a w'.

Definition Math_random : M Q :=
  fun w => (randoms w 0%nat,
            mkWorld (fun n => randoms w (S n)) (clock w)).

Definition Date_now : M Z :=
  fun w => (clock w 0%nat,
            mkWorld (randoms w) (fun n => clock w (S n))).

Definition run {A : Type} (m : M A) (w : World) : A := fst (m w).

End Env.

Notation "x <- m ;; k" := (Env.bind m (fun x => k))
  (at level 61, m at next level, right associativity).

(* ================================================================== *)
(** * Code the two pages share word for word *)
(* ================================================================== *)

Module Common.
Import JS.

(** ** The loop of stringToHue *)

(** One turn of the loop: [hash = code + ((hash << 5) - hash)].  Only the
    shift wraps to 32 bits; the subtraction and the sum are number
    arithmetic. *)
Definition hash_step (hash code : Z) : Z := code + (shl hash 5 - hash).

(** The loop over the code units, from [hash = 0]. *)
Definition hash_codes (codes : list Z) : Z := fold_left hash_step codes 0.

(** [Math.abs(hash) % 360] after the loop. *)
Definition hue_of_codes (codes : list Z) : Z :=
  rem (Math_abs (hash_codes codes)) 360.

(** ** The serialiser of exportToCsv *)

(** A cell of the table handed to the serialiser: a string or a number. *)
Inductive Cell : Type := CStr (s : string) | CNum (n : Z).

(** [String(x)] on a cell. *)
Definition String_ (x : Cell) : string :=
  match x with CStr s => s | CNum n => String_number n end.

(** The template literal of [exportToCsv]: a double quote, [String(x)] with
    every double quote replaced by two, and a double quote. *)
Definition quote_cell (x : Cell) : string :=
  (DQ ++ replaceAll (String_ x) dquote (DQ ++ DQ) ++ DQ)%string.

(** The two nested [map] calls and the two [join] calls, on the table
    made of the header and the body. *)
Definition csv_of_table (table : list (list Cell)) : string :=
  join LF (List.map (fun r => join "," (List.map quote_cell r)) table).

(** What the download link receives: the blob (content and type) and the
    file name. *)
Record Download : Type := mkDownload {
  blob_content : string;
  blob_type : string;
  download : string
}.

End Common.

(* ================================================================== *)
(** * Variant A: the tracker page *)
(* ================================================================== *)

Module Tracker.
Import JS Env Common.

(** ** Data model *)

Inductive StatusActivity : Type := Active | Inactive | Leave.
Inductive YesNo : Type := Yes | No.
Inductive Performance : Type := Good | Weak.
Inductive Segregation : Type := Resign | Warning | Terminated | Relocated.
Inductive SheetStatus : Type := Green | Red | Black.

(** The members of these union types are string literals; these are the
    strings. *)
Definition StatusActivity_str (s : StatusActivity) : string :=
  match s with Active => "Active" | Inactive => "Inactive" | Leave => "Leave" end.
Definition YesNo_str (y : YesNo) : string :=
  match y with Yes => "Yes" | No => "No" end.
Definition Performance_str (p : Performance) : string :=
  match p with Good => "Good" | Weak => "Weak" end.
Definition Segregation_str (s : Segregation) : string :=
  match s with
  | Resign => "Resign" | Warning => "Warning"
  | Terminated => "Terminated" | Relocated => "Relocated"
  end.
Definition SheetStatus_str (s : SheetStatus) : string :=
  match s with Green => "Green" | Red => "Red" | Black => "Black" end.

(** The two speakers fields are integers: the page writes the count with
    the result of [Math.floor] only, and the target with 100 only. *)
Record Intern : Type := mkIntern {
  id : string;
  name : string;
  email : string;
  statusActivity : StatusActivity;
  excelSubmitted : YesNo;
  aiChatAdded : bool;
  dataMiningGC : bool;
  speakersCount : Z;
  speakersTarget : Z;
  performance : Performance;
  segregation : option Segregation;
  sheetStatus : SheetStatus;
  dataRepurposed : YesNo
}.

(** The object spreads [{ ...p, field: v }], one per field that is written. *)
Definition with_name (p : Intern) (v : string) : Intern :=
  mkIntern (id p) v (email p) (statusActivity p) (excelSubmitted p)
    (aiChatAdded p) (dataMiningGC p) (speakersCount p) (speakersTarget p)
    (performance p) (segregation p) (sheetStatus p) (dataRepurposed p).
Definition with_email (p : Intern) (v : string) : Intern :=
  mkIntern (id p) (name p) v (statusActivity p) (excelSubmitted p)
    (aiChatAdded p) (dataMiningGC p) (speakersCount p) (speakersTarget p)
    (performance p) (segregation p) (sheetStatus p) (dataRepurposed p).
Definition with_statusActivity (p : Intern) (v : StatusActivity) : Intern :=
  mkIntern (id p) (name p) (email p) v (excelSubmitted p)
    (aiChatAdded p) (dataMiningGC p) (speakersCount p) (speakersTarget p)
    (performance p) (segregation p) (sheetStatus p) (dataRepurposed p).
Definition with_excelSubmitted (p : Intern) (v : YesNo) : Intern :=
  mkIntern (id p) (name p) (email p) (statusActivity p) v
    (aiChatAdded p) (dataMiningGC p) (speakersCount p) (speakersTarget p)
    (performance p) (segregation p) (sheetStatus p) (dataRepurposed p).
Definition with_aiChatAdded (p : Intern) (v : bool) : Intern :=
  mkIntern (id p) (name p) (email p) (statusActivity p) (excelSubmitted p)
    v (dataMiningGC p) (speakersCount p) (speakersTarget p)
    (performance p) (segregation p) (sheetStatus p) (dataRepurposed p).
Definition with_dataMiningGC (p : Intern) (v : bool) : Intern :=
  mkIntern (id p) (name p) (email p) (statusActivity p) (excelSubmitted p)
    (aiChatAdded p) v (speakersCount p) (speakersTarget p)
    (performance p) (segregation p) (sheetStatus p) (dataRepurposed p).
Definition with_speakersCount (p : Intern) (v : Z) : Intern :=
  mkIntern (id p) (name p) (email p) (statusActivity p) (excelSubmitted p)
    (aiChatAdded p) (dataMiningGC p) v (speakersTarget p)
    (performance p) (segregation p) (sheetStatus p) (dataRepurposed p).
Definition with_performance (p : Intern) (v : Performance) : Intern :=
  mkIntern (id p) (name p) (email p) (statusActivity p) (excelSubmitted p)
    (aiChatAdded p) (dataMiningGC p) (speakersCount p) (speakersTarget p)
    v (segregation p) (sheetStatus p) (dataRepurposed p).
Definition with_segregation (p : Intern) (v : option Segregation) : Intern :=
  mkIntern (id p) (name p) (email p) (statusActivity p) (excelSubmitted p)
    (aiChatAdded p) (dataMiningGC p) (speakersCount p) (speakersTarget p)
    (performance p) v (sheetStatus p) (dataRepurposed p).
Definition with_sheetStatus (p : Intern) (v : SheetStatus) : Intern :=
  mkIntern (id p) (name p) (email p) (statusActivity p) (excelSubmitted p)
    (aiChatAdded p) (dataMiningGC p) (speakersCount p) (speakersTarget p)
    (performance p) (segregation p) v (dataRepurposed p).
Definition with_dataRepurposed (p : Intern) (v : YesNo) : Intern :=
  mkIntern (id p) (name p) (email p) (statusActivity p) (excelSubmitted p)
    (aiChatAdded p) (dataMiningGC p) (speakersCount p) (speakersTarget p)
    (performance p) (segregation p) (sheetStatus p) v.

(** The test that a nullable segregation is Terminated or Relocated. *)
Definition is_exit (v : option Segregation) : bool :=
  match v with
  | Some Terminated | Some Relocated => true
  | _ => false
  end.

(** ** stringToHue *)

(** The loop bound is the length of [str], or of the empty string when
    [str] is falsy, and turn [i] reads [str.charCodeAt(i)]. *)
Definition stringToHue (str : string) : Z :=
  hue_of_codes (charCodes (or_else str "")).

(** ** exportToCsv *)

Definition header : list Cell :=
  [ CStr "Name"; CStr "Email"; CStr "Status"; CStr "ExcelSubmitted";
    CStr "AIChatAdded"; CStr "DataMiningGC"; CStr "SpeakersCount";
    CStr "Performance"; CStr "Segregation"; CStr "SheetStatus";
    CStr "DataRepurposed" ].

(** The array built for one record by the [rows.map] call. *)
Definition body_row (r : Intern) : list Cell :=
  [ CStr (name r);
    CStr (email r);
    CStr (StatusActivity_str (statusActivity r));
    CStr (YesNo_str (excelSubmitted r));
    CStr (if aiChatAdded r then "Yes" else "No");
    CStr (if dataMiningGC r then "Yes" else "No");
    CNum (speakersCount r);
    CStr (Performance_str (performance r));
    CStr (nullish (option_map Segregation_str (segregation r)) "");
    CStr (SheetStatus_str (sheetStatus r));
    CStr (YesNo_str (dataRepurposed r)) ].

(** The constant [csv] of [exportToCsv]. *)
Definition csv (rows : list Intern) : string :=
  csv_of_table (header :: List.map body_row rows).

(** [today] is the first ten characters of the ISO form of the date. *)
Definition exportToCsv (rows : list Intern) (today : string) : Download :=
  mkDownload (csv rows) "text/csv;charset=utf-8;"
    ("interns-" ++ today ++ ".csv")%string.

(** ** generateSeedInterns

    The thresholds are the decimal values of the literals, and the
    product [Math.random() * 120] is taken exactly. *)

(** The body of the loop for index [i]: the record that is pushed.  The
    random numbers are drawn in the order of the source; the draws for
    [performance] and [sheetStatus] happen only on the branches that reach
    them. *)
Definition seed_intern (i : Z) : M Intern :=
  statusRand <- Math_random ;;
  let statusActivity := if gt statusRand (15 # 100) then Active else Inactive in
  r1 <- Math_random ;;
  let excelSubmitted := if gt r1 (35 # 100) then Yes else No in
  r2 <- Math_random ;;
  let aiChatAdded := gt r2 (5 # 10) in
  r3 <- Math_random ;;
  let dataMiningGC := gt r3 (5 # 10) in
  r4 <- Math_random ;;
  let speakersCount := Math_floor (r4 * 120) in
  let speakersTarget := 100 in
  performance <-
    (if (speakersCount >? 60) && aiChatAdded && dataMiningGC then ret Good
     else r5 <- Math_random ;; ret (if gt r5 (8 # 10) then Good else Weak)) ;;
  segRand <- Math_random ;;
  let segregation :=
    if gt segRand (985 # 1000) then Some Relocated
    else if gt segRand (97 # 100) then Some Terminated
    else if gt segRand (95 # 100) then Some Warning
    else None in
  sheetStatus <-
    (if is_exit segregation then ret Black
     else if (match excelSubmitted with Yes => true | No => false end)
             && (aiChatAdded || dataMiningGC) then ret Green
     else r6 <- Math_random ;; ret (if gt r6 (7 # 10) then Red else Green)) ;;
  r7 <- Math_random ;;
  let dataRepurposed := if gt r7 (8 # 10) then Yes else No in
  now <- Date_now ;;
  ret (mkIntern (String_number now ++ "-" ++ String_number i)%string
         EmptyString EmptyString statusActivity excelSubmitted aiChatAdded
         dataMiningGC speakersCount speakersTarget performance segregation
         sheetStatus dataRepurposed).

(** The [for] loop with [n] turns left, at index [i], [out] being the
    array built so far. *)
Fixpoint seed_loop (n : nat) (i : Z) (out : list Intern) : M (list Intern) :=
  match n with
  | O => ret out
  | S n' => p <- seed_intern i ;; seed_loop n' (i + 1) (out ++ [p])
  end.

Definition generateSeedInterns (count : Z) : M (list Intern) :=
  seed_loop (Z.to_nat count) 0 [].

(** ** The derived views *)

(** The three [.filter] calls of [filtered], before its [.sort]. *)
Definition filtered_presort (interns : list Intern)
    (search filterSheet filterPerf : string) : list Intern :=
  filter
    (fun i =>
       let q := toLowerCase (trim search) in
       if negb (truthy q) then true
       else includes (toLowerCase (or_else (name i) "")) q
            || includes (toLowerCase (or_else (email i) "")) q
            || includes
                 (toLowerCase
                    (nullish (option_map Segregation_str (segregation i)) ""))
                 q)
    (filter
       (fun i =>
          if String.eqb filterPerf "All" then true
          else String.eqb (Performance_str (performance i)) filterPerf)
       (filter
          (fun i =>
             if String.eqb filterSheet "All" then true
             else String.eqb (SheetStatus_str (sheetStatus i)) filterSheet)
          interns)).

(** [filtered]: the filters, then [Array.prototype.sort] with the
    comparator on the number after the dash of the ids; [sort] stands for
    that call. *)
Definition filtered (sort : list Intern -> list Intern)
    (interns : list Intern) (search filterSheet filterPerf : string)
    : list Intern :=
  sort (filtered_presort interns search filterSheet filterPerf).

(** [totalPages]; the quotient is the one of the numbers, which is exact
    for a page size other than zero. *)
Definition totalPages (filtered : list Intern) (pageSize : Z) : Z :=
  Math_max 1
    (Math_ceil (inject_Z (Z.of_nat (List.length filtered)) / inject_Z pageSize)).

Definition paginated (filtered : list Intern) (page pageSize : Z)
    : list Intern :=
  let start := (page - 1) * pageSize in
  slice filtered start (start + pageSize).

(** ** The page controls *)

(** The updater of the Prev button. *)
Definition prevPage (p : Z) : Z := Math_max 1 (p - 1).

(** The updater of the Next button, [totalPages] being the value of the
    current render. *)
Definition nextPage (totalPages p : Z) : Z := Math_min totalPages (p + 1).

(** The paging part of the view state. *)
Record Paging : Type := mkPaging { page : Z; pageSize : Z }.

(** The initial values of the two [useState] calls. *)
Definition initialPaging : Paging := mkPaging 1 50.

(** [onValueChange] of the rows-per-page select, [n] being [Number(v)]. *)
Definition onPageSizeChange (n : Z) (st : Paging) : Paging :=
  let st1 := mkPaging (page st) n in          (* setPageSize(Number(v)) *)
  mkPaging 1 (pageSize st1).                  (* setPage(1) *)

Definition onPrev (st : Paging) : Paging :=
  mkPaging (prevPage (page st)) (pageSize st).

Definition onNext (totalPages : Z) (st : Paging) : Paging :=
  mkPaging (nextPage totalPages (page st)) (pageSize st).

(** ** The inline edits

    Each is the updater handed to [setInterns]: a [map] over the previous
    array that rewrites the records whose id is the given one. *)

Definition toggleAiChat (id0 : string) (prev : list Intern) : list Intern :=
  List.map
    (fun p => if String.eqb (id p) id0
              then with_aiChatAdded p (negb (aiChatAdded p)) else p)
    prev.

Definition toggleDataMining (id0 : string) (prev : list Intern) : list Intern :=
  List.map
    (fun p => if String.eqb (id p) id0
              then with_dataMiningGC p (negb (dataMiningGC p)) else p)
    prev.

(** [count] is a finite number, whole or not: the number field hands over
    [Number(e.target.value || 0)], and its value is the empty string or
    the text of a finite number. *)
Definition updateSpeakers (id0 : string) (count : Q) (prev : list Intern)
    : list Intern :=
  List.map
    (fun p =>
       if negb (String.eqb (id p) id0) then p
       else
         let updated :=
           with_speakersCount p
             (Math_max 0 (Math_min 1000 (Math_floor count))) in
         if (speakersCount updated >=? speakersTarget updated)
            && (match segregation updated with None => true | Some _ => false end
                || (match segregation updated with
                    | Some Terminated => false | _ => true end
                    && match segregation updated with
                       | Some Relocated => false | _ => true end))
         then with_sheetStatus updated Green
         else updated)
    prev.

Definition setSheetStatus (id0 : string) (status : SheetStatus)
    (prev : list Intern) : list Intern :=
  List.map
    (fun p => if String.eqb (id p) id0 then with_sheetStatus p status else p)
    prev.

Definition setStatusActivity (id0 : string) (s : StatusActivity)
    (prev : list Intern) : list Intern :=
  List.map
    (fun p => if String.eqb (id p) id0 then with_statusActivity p s else p)
    prev.

Definition setExcelSubmitted (id0 : string) (v : YesNo)
    (prev : list Intern) : list Intern :=
  List.map
    (fun p => if String.eqb (id p) id0 then with_excelSubmitted p v else p)
    prev.

Definition setDataRepurposed (id0 : string) (v : YesNo)
    (prev : list Intern) : list Intern :=
  List.map
    (fun p => if String.eqb (id p) id0 then with_dataRepurposed p v else p)
    prev.

Definition setPerformance (id0 : string) (v : Performance)
    (prev : list Intern) : list Intern :=
  List.map
    (fun p => if String.eqb (id p) id0 then with_performance p v else p)
    prev.

Definition setSegregation (id0 : string) (v : option Segregation)
    (prev : list Intern) : list Intern :=
  List.map
    (fun p =>
       if negb (String.eqb (id p) id0) then p
       else
         let updated := with_segregation p v in
         if is_exit v then with_sheetStatus updated Black else updated)
    prev.

Definition setName (id0 : string) (name0 : string) (prev : list Intern)
    : list Intern :=
  List.map (fun p => if String.eqb (id p) id0 then with_name p name0 else p)
    prev.

Definition setEmail (id0 : string) (email0 : string) (prev : list Intern)
    : list Intern :=
  List.map (fun p => if String.eqb (id p) id0 then with_email p email0 else p)
    prev.

(** ** initials *)

(** The array after [.slice(0, 2)]: the first code unit of each of the
    first two pieces between spaces that are not empty. *)
Definition initial_letters (name0 : string) : list ascii :=
  slice (filter_Boolean (List.map first_char (split name0 " "%char))) 0 2.

(** [initials], as the code units of the result. *)
Definition initials (name0 : string) : list Z :=
  if negb (truthy name0) then []
  else toUpperCase (join "" (List.map (fun c => String c EmptyString)
                               (initial_letters name0))).

(** ** summary *)

Record Summary : Type := mkSummary {
  total : Z;
  green : Z;
  red : Z;
  black : Z;
  active : Z;
  inactive : Z;
  excelYes : Z;
  excelNo : Z;
  tasksCompleted : Z;
  good : Z;
  weak : Z;
  repurposedYes : Z;
  repurposedNo : Z
}.

(** [interns.filter(f).length]. *)
Definition count_of (f : Intern -> bool) (interns : list Intern) : Z :=
  Z.of_nat (List.length (filter f interns)).

Definition summary (interns : list Intern) : Summary :=
  let total := Z.of_nat (List.length interns) in
  let green :=
    count_of (fun i => String.eqb (SheetStatus_str (sheetStatus i)) "Green")
      interns in
  let red :=
    count_of (fun i => String.eqb (SheetStatus_str (sheetStatus i)) "Red")
      interns in
  let black :=
    count_of (fun i => String.eqb (SheetStatus_str (sheetStatus i)) "Black")
      interns in
  let active :=
    count_of
      (fun i => String.eqb (StatusActivity_str (statusActivity i)) "Active")
      interns in
  let inactive := total - active in
  let excelYes :=
    count_of (fun i => String.eqb (YesNo_str (excelSubmitted i)) "Yes")
      interns in
  let excelNo := total - excelYes in
  let tasksCompleted :=
    count_of
      (fun i => aiChatAdded i && dataMiningGC i
                && (speakersCount i >=? speakersTarget i))
      interns in
  let good :=
    count_of (fun i => String.eqb (Performance_str (performance i)) "Good")
      interns in
  let weak :=
    count_of (fun i => String.eqb (Performance_str (performance i)) "Weak")
      interns in
  let repurposedYes :=
    count_of (fun i => String.eqb (YesNo_str (dataRepurposed i)) "Yes")
      interns in
  let repurposedNo := total - repurposedYes in
  mkSummary total green red black active inactive excelYes excelNo
    tasksCompleted good weak repurposedYes repurposedNo.

(** ** The store of the page *)

(** The initial value of [interns]. *)
Definition initialInterns : M (list Intern) := generateSeedInterns 550.

(** The updater of the button that adds 50 blank rows: the new records,
    then the previous ones. *)
Definition addRows (prev : list Intern) : M (list Intern) :=
  seeds <- generateSeedInterns 50 ;;
  ret (seeds ++ prev).

End Tracker.

(* ================================================================== *)
(** * Variant B: the CRUD page *)
(* ================================================================== *)

Module Crud.
Import JS Common.

(** ** Data model *)

Inductive Status : Type := Active | Offer | Completed | Offboarded.

Definition Status_str (s : Status) : string :=
  match s with
  | Active => "Active" | Offer => "Offer"
  | Completed => "Completed" | Offboarded => "Offboarded"
  end.

(** [score] is a finite double, given by the rational it denotes: the seed
    scores are, and so is what [Number(e.target.value || 0)] yields for the
    text of the number field of the dialog, which is empty or the text of a
    finite number. *)
Record Intern : Type := mkIntern {
  id : string;
  name : string;
  email : string;
  department : string;
  mentor : string;
  startDate : string;
  status : Status;
  score : Q
}.

(** The intern without its id, the type of the form of the dialog. *)
Record Form : Type := mkForm {
  f_name : string;
  f_email : string;
  f_department : string;
  f_mentor : string;
  f_startDate : string;
  f_status : Status;
  f_score : Q
}.

Definition departments : list string :=
  ["Engineering"; "Design"; "Marketing"; "Product"; "HR"]%string.

Definition statuses : list Status := [Active; Offer; Completed; Offboarded].

(** [seedInterns], given the ISO dates of today and of 30, 90 and 7 days
    ago. *)
Definition seedInterns (today d30 d90 d7 : string) : list Intern :=
  [ mkIntern "1" "Ava Patel" "ava.patel@example.com" "Engineering"
      "M. Nguyen" today Active 92%Q;
    mkIntern "2" "Liam Johnson" "liam.johnson@example.com" "Design"
      "S. Kaur" d30 Active 81%Q;
    mkIntern "3" "Maya Chen" "maya.chen@example.com" "Marketing"
      "R. Davis" d90 Completed 88%Q;
    mkIntern "4" ("Ethan Garc" ++ String "237"%char "a")%string
      "ethan.garcia@example.com" "Engineering" "K. Brown" d7 Offer 75%Q ].

(** ** stringToHue *)

Definition stringToHue (str : string) : Z := hue_of_codes (charCodes str).

(** ** exportToCsv *)

Definition header : list Cell :=
  [ CStr "Name"; CStr "Email"; CStr "Department"; CStr "Mentor";
    CStr "Start Date"; CStr "Status"; CStr "Score" ].

Definition body_row (r : Intern) : list Cell :=
  [ CStr (name r); CStr (email r); CStr (department r); CStr (mentor r);
    CStr (startDate r); CStr (Status_str (status r));
    CStr (String_double (score r)) ].

Definition csv (rows : list Intern) : string :=
  csv_of_table (header :: List.map body_row rows).

Definition exportToCsv (rows : list Intern) (today : string) : Download :=
  mkDownload (csv rows) "text/csv;charset=utf-8;"
    ("interns-" ++ today ++ ".csv")%string.

(** ** The derived views *)

(** The three [.filter] calls of [filtered], before its [.sort]. *)
Definition filtered_presort (interns : list Intern)
    (search dept status0 : string) : list Intern :=
  filter
    (fun i =>
       let q := toLowerCase (trim search) in
       if negb (truthy q) then true
       else includes (toLowerCase (name i)) q
            || includes (toLowerCase (email i)) q
            || includes (toLowerCase (mentor i)) q
            || includes (toLowerCase (department i)) q)
    (filter
       (fun i =>
          if String.eqb status0 "All" then true
          else String.eqb (Status_str (status i)) status0)
       (filter
          (fun i =>
             if String.eqb dept "All" then true
             else String.eqb (department i) dept)
          interns)).

(** [filtered]: the filters, then [Array.prototype.sort] with
    [localeCompare] on the start dates; [sort] stands for that call. *)
Definition filtered (sort : list Intern -> list Intern)
    (interns : list Intern) (search dept status0 : string) : list Intern :=
  sort (filtered_presort interns search dept status0).

(** ** stats *)

Record Stats : Type := mkStats {
  active : Z;
  offers : Z;
  completed : Z;
  avgScore : number
}.

Definition is_status (s : Status) (i : Intern) : bool :=
  String.eqb (Status_str (status i)) (Status_str s).

(** [interns.reduce((s, i) => s + i.score, 0)]. *)
Definition score_sum (interns : list Intern) : number :=
  fold_left (fun s i => fl_add s (Finite (score i))) interns (Finite 0).

Definition stats (interns : list Intern) : Stats :=
  let active := Z.of_nat (List.length (filter (is_status Active) interns)) in
  let offers := Z.of_nat (List.length (filter (is_status Offer) interns)) in
  let completed :=
    Z.of_nat (List.length (filter (is_status Completed) interns)) in
  let avgScore :=
    if negb (Z.of_nat (List.length interns) =? 0)
    then Math_round_number
           (fl_div (score_sum interns)
              (inject_Z (Z.of_nat (List.length interns))))
    else Finite 0 in
  mkStats active offers completed avgScore.

(** ** addIntern *)

(** The state the dialog works on. *)
Record State : Type := mkState {
  interns : list Intern;
  open : bool;
  form : Form
}.

(** The blank form, [today] being the ISO date of the day. *)
Definition blankForm (today : string) : Form :=
  mkForm "" "" (nth 0 departments ""%string) "" today Active 80%Q.

Definition initialState (today d30 d90 d7 : string) : State :=
  mkState (seedInterns today d30 d90 d7) false (blankForm today).

(** The object [{ id, ...form }]. *)
Definition intern_of_form (id0 : string) (f : Form) : Intern :=
  mkIntern id0 (f_name f) (f_email f) (f_department f) (f_mentor f)
    (f_startDate f) (f_status f) (f_score f).

(** [addIntern]; [id0] is the string drawn from [Math.random()] and
    [today] the ISO date of the day. *)
Definition addIntern (id0 today : string) (st : State) : State :=
  if negb (truthy (f_name (form st))) || negb (truthy (f_email (form st)))
  then st
  else
    let st1 :=
      mkState (intern_of_form id0 (form st) :: interns st)
        (open st) (form st) in                              (* setInterns *)
    let st2 := mkState (interns st1) false (form st1) in    (* setOpen *)
    mkState (interns st2) (open st2) (blankForm today).     (* setForm *)

(** ** initials *)

(** The array after [.slice(0, 2)]. *)
Definition initial_letters (name0 : string) : list ascii :=
  slice (filter_Boolean (List.map first_char (split name0 " "%char))) 0 2.

(** [initials], as the code units of the result. *)
Definition initials (name0 : string) : list Z :=
  toUpperCase (join "" (List.map (fun c => String c EmptyString)
                          (initial_letters name0))).

End Crud.

(* ================================================================== *)
(** * The words of the statements

    What the lemmas below say about the pages is said with these
    definitions; none of them is part of the pages. *)
(* ================================================================== *)

Section HueWords.
Import JS Common.

(** The signed 32-bit reading of an integer, written as one residue. *)
Definition wrap32 (x : Z) : Z := (x + 2 ^ 31) mod 2 ^ 32 - 2 ^ 31.

(** The hash as the specification words it: starting from [h], each code
    unit [c] turns the hash into [c + ((h << 5) - h)], where the shift, and
    only the shift, wraps to a signed 32-bit value. *)
Fixpoint rolling_hash (h : Z) (codes : list Z) : Z :=
  match codes with
  | [] => h
  | c :: rest => rolling_hash (c + (wrap32 (h * 2 ^ 5) - h)) rest
  end.

End HueWords.

Section TrackerWords.
Import JS Env Tracker.

(** [p'] is [p] but for the speakers count and the sheet status. *)
Definition same_but_count_and_sheet (p p' : Intern) : Prop :=
  id p' = id p /\ name p' = name p /\ email p' = email p /\
  statusActivity p' = statusActivity p /\
  excelSubmitted p' = excelSubmitted p /\
  aiChatAdded p' = aiChatAdded p /\ dataMiningGC p' = dataMiningGC p /\
  speakersTarget p' = speakersTarget p /\ performance p' = performance p /\
  segregation p' = segregation p /\ dataRepurposed p' = dataRepurposed p.

(** [p'] is [p] but for the segregation and the sheet status. *)
Definition same_but_segregation_and_sheet (p p' : Intern) : Prop :=
  id p' = id p /\ name p' = name p /\ email p' = email p /\
  statusActivity p' = statusActivity p /\
  excelSubmitted p' = excelSubmitted p /\
  aiChatAdded p' = aiChatAdded p /\ dataMiningGC p' = dataMiningGC p /\
  speakersCount p' = speakersCount p /\
  speakersTarget p' = speakersTarget p /\ performance p' = performance p /\
  dataRepurposed p' = dataRepurposed p.

(** The value of [c] clamped to [0, 1000], with no rounding. *)
Definition clamp_0_1000 (c : Q) : Q :=
  if Qle_bool c 0 then 0%Q else if Qle_bool 1000 c then 1000%Q else c.

(** The count [updateSpeakers] would store if it stored the clamped value
    of its argument as it is. *)
Definition stores_clamped_argument (id0 : string) (c : Q)
    (store : list Intern) : Prop :=
  forall k p p',
    nth_error store k = Some p ->
    nth_error (updateSpeakers id0 c store) k = Some p' ->
    id p = id0 ->
    (inject_Z (speakersCount p') == clamp_0_1000 c)%Q.

(** A record to try the rules on. *)
Definition sample (id0 : string) (count : Z) (seg : option Segregation)
    (sheet : SheetStatus) : Intern :=
  mkIntern id0 "" "" Active Yes true false count 100 Weak seg sheet No.

(** The inline edits as data, and the store after one of them. *)
Inductive Mutation : Type :=
| SetName (id0 name0 : string)
| SetEmail (id0 email0 : string)
| SetStatusActivity (id0 : string) (s : StatusActivity)
| SetExcelSubmitted (id0 : string) (v : YesNo)
| ToggleAiChat (id0 : string)
| ToggleDataMining (id0 : string)
| UpdateSpeakers (id0 : string) (count : Q)
| SetPerformance (id0 : string) (v : Performance)
| SetSegregation (id0 : string) (v : option Segregation)
| SetSheetStatus (id0 : string) (status : SheetStatus)
| SetDataRepurposed (id0 : string) (v : YesNo).

Definition mutate (m : Mutation) (prev : list Intern) : list Intern :=
  match m with
  | SetName i v => setName i v prev
  | SetEmail i v => setEmail i v prev
  | SetStatusActivity i v => setStatusActivity i v prev
  | SetExcelSubmitted i v => setExcelSubmitted i v prev
  | ToggleAiChat i => toggleAiChat i prev
  | ToggleDataMining i => toggleDataMining i prev
  | UpdateSpeakers i c => updateSpeakers i c prev
  | SetPerformance i v => setPerformance i v prev
  | SetSegregation i v => setSegregation i v prev
  | SetSheetStatus i v => setSheetStatus i v prev
  | SetDataRepurposed i v => setDataRepurposed i v prev
  end.

(** The stores the page can hold: the output of the seed generator, and
    what the inline edits make of a store it can hold. *)
Inductive reachable : list Intern -> Prop :=
| reach_seed (count : Z) (w : World) :
    reachable (run (generateSeedInterns count) w)
| reach_mutate (m : Mutation) (s : list Intern) :
    reachable s -> reachable (mutate m s).

(** The same, with one restriction: a direct [setSheetStatus] to a value
    other than Black is not aimed at the id of a record whose segregation
    is Terminated or Relocated. *)
Definition spares_exits (m : Mutation) (s : list Intern) : Prop :=
  match m with
  | SetSheetStatus i v =>
      v = Black \/
      forall p, In p s -> id p = i -> is_exit (segregation p) = false
  | _ => True
  end.

Inductive reachable_sparing : list Intern -> Prop :=
| spare_seed (count : Z) (w : World) :
    reachable_sparing (run (generateSeedInterns count) w)
| spare_mutate (m : Mutation) (s : list Intern) :
    reachable_sparing s -> spares_exits m s ->
    reachable_sparing (mutate m s).

(** The invariant of the data model: an exit segregation goes with a
    Black sheet. *)
Definition exit_is_black (p : Intern) : Prop :=
  is_exit (segregation p) = true -> sheetStatus p = Black.

(** A world whose every random number is 98/100 and whose clock shows 7. *)
Definition world98 : World := mkWorld (fun _ => 98 # 100)%Q (fun _ => 7).

(** The store of one seed record in [world98], whose segregation comes out
    Terminated, after its count is raised and its sheet is set to Black. *)
Definition spared_store : list Intern :=
  mutate (SetSheetStatus "7-0" Black)
    (mutate (UpdateSpeakers "7-0" (500 # 1))
       (run (generateSeedInterns 1) world98)).

(** The page numbers 1, ..., [t]. *)
Definition pageNumbers (t : Z) : list Z :=
  List.map (fun i => Z.of_nat i + 1) (seq 0 (Z.to_nat t)).

(** Five records, named by their ids. *)
Definition five : list Intern :=
  List.map (fun i => sample i 0 None Red) ["a"; "b"; "c"; "d"; "e"]%string.

End TrackerWords.

Section FilterWords.
Import JS.

Local Open Scope string_scope.

(** [sub] is [full] with some elements left out, the order kept. *)
Inductive Subsequence {A : Type} : list A -> list A -> Prop :=
| sub_nil : Subsequence [] []
| sub_keep (x : A) (sub full : list A) :
    Subsequence sub full -> Subsequence (x :: sub) (x :: full)
| sub_drop (x : A) (sub full : list A) :
    Subsequence sub full -> Subsequence sub (x :: full).

(** [field] contains [query] as a substring, letter case left aside. *)
Definition contains_ci (field query : string) : Prop :=
  exists pre post, toLowerCase field = pre ++ toLowerCase query ++ post.

(** The string the tracker searches for the segregation: its name, or the
    empty string when there is none. *)
Definition segregation_text (i : Tracker.Intern) : string :=
  match Tracker.segregation i with
  | Some s => Tracker.Segregation_str s
  | None => ""
  end.

(** What the view state of the tracker asks of a record: each select that
    is not on All names the value of its field, and a search text that is
    not blank occurs in the name, the email or the segregation. *)
Definition tracker_matches (search filterSheet filterPerf : string)
    (i : Tracker.Intern) : Prop :=
  (filterSheet = "All"
   \/ Tracker.SheetStatus_str (Tracker.sheetStatus i) = filterSheet) /\
  (filterPerf = "All"
   \/ Tracker.Performance_str (Tracker.performance i) = filterPerf) /\
  (trim search = ""
   \/ contains_ci (Tracker.name i) (trim search)
   \/ contains_ci (Tracker.email i) (trim search)
   \/ contains_ci (segregation_text i) (trim search)).

(** The same for the CRUD page: department and status selects, and a
    search over name, email, mentor and department. *)
Definition crud_matches (search dept status0 : string)
    (i : Crud.Intern) : Prop :=
  (dept = "All" \/ Crud.department i = dept) /\
  (status0 = "All" \/ Crud.Status_str (Crud.status i) = status0) /\
  (trim search = ""
   \/ contains_ci (Crud.name i) (trim search)
   \/ contains_ci (Crud.email i) (trim search)
   \/ contains_ci (Crud.mentor i) (trim search)
   \/ contains_ci (Crud.department i) (trim search)).

End FilterWords.

Section CsvWords.
Import JS Common.

Local Open Scope string_scope.

(** A string with each of its double quotes written twice. *)
Fixpoint double_quotes (s : string) : string :=
  match s with
  | EmptyString => EmptyString
  | String c r =>
      if Ascii.eqb c dquote
      then String dquote (String dquote (double_quotes r))
      else String c (double_quotes r)
  end.

(** The reverse reading: a pair of double quotes stands for one. *)
Fixpoint single_quotes (s : string) : string :=
  match s with
  | EmptyString => EmptyString
  | String c t =>
      match t with
      | EmptyString => String c EmptyString
      | String d r =>
          if Ascii.eqb c dquote && Ascii.eqb d dquote
          then String dquote (single_quotes r)
          else String c (single_quotes t)
      end
  end.

(** A field of the document: the value between double quotes, its own
    double quotes doubled. *)
Definition quoted (value : string) : string :=
  DQ ++ double_quotes value ++ DQ.

(** A row of the document: its fields, quoted, with commas between. *)
Definition csv_row (values : list string) : string :=
  join "," (List.map quoted values).

(** A boolean as the document shows it. *)
Definition yes_no (b : bool) : string := if b then "Yes" else "No".

(** The column names and the display strings of a record, tracker. *)
Definition tracker_columns : list string :=
  [ "Name"; "Email"; "Status"; "ExcelSubmitted"; "AIChatAdded";
    "DataMiningGC"; "SpeakersCount"; "Performance"; "Segregation";
    "SheetStatus"; "DataRepurposed" ].

Definition tracker_display (r : Tracker.Intern) : list string :=
  [ Tracker.name r;
    Tracker.email r;
    Tracker.StatusActivity_str (Tracker.statusActivity r);
    Tracker.YesNo_str (Tracker.excelSubmitted r);
    yes_no (Tracker.aiChatAdded r);
    yes_no (Tracker.dataMiningGC r);
    String_number (Tracker.speakersCount r);
    Tracker.Performance_str (Tracker.performance r);
    match Tracker.segregation r with
    | Some s => Tracker.Segregation_str s
    | None => ""
    end;
    Tracker.SheetStatus_str (Tracker.sheetStatus r);
    Tracker.YesNo_str (Tracker.dataRepurposed r) ].

(** The column names and the display strings of a record, CRUD page. *)
Definition crud_columns : list string :=
  [ "Name"; "Email"; "Department"; "Mentor"; "Start Date"; "Status";
    "Score" ].

Definition crud_display (r : Crud.Intern) : list string :=
  [ Crud.name r; Crud.email r; Crud.department r; Crud.mentor r;
    Crud.startDate r; Crud.Status_str (Crud.status r);
    String_double (Crud.score r) ].

(** The document: the header row, then the rows of the records in order,
    with line feeds between. *)
Definition csv_document (columns : list string)
    (records : list (list string)) : string :=
  join LF (List.map csv_row (columns :: records)).

End CsvWords.

Section CrudWords.
Import JS Crud.

(** The sum of the scores of the records, as a real number. *)
Fixpoint total_score (l : list Intern) : Q :=
  match l with
  | [] => 0%Q
  | i :: rest => (score i + total_score rest)%Q
  end.

(** The mean of the scores of the records, as a real number. *)
Definition mean_score (l : list Intern) : Q :=
  (total_score l / inject_Z (Z.of_nat (List.length l)))%Q.




(** The double that the decimal [q] denotes, for a [q] in the range of the
    finite doubles: what [Number] makes of the text of the number field. *)
Definition double_of (q : Q) : Q :=
  match round64 q with
  | Finite y => y
  | _ => 0%Q
  end.

(** A record of the given score. *)
Definition scored (q : Q) : Intern :=
  mkIntern "" "" "" "" "" "" Active q.


(** Two records with the scores 2^53 and 1. *)
Definition large_scores : list Intern :=
  [scored (inject_Z (2 ^ 53)); scored 1%Q].

End CrudWords.


Section StoreWords.
Import JS Env Tracker.

(** The id an inline edit is aimed at. *)
Definition target_id (m : Mutation) : string :=
  match m with
  | SetName i _ | SetEmail i _ | SetStatusActivity i _
  | SetExcelSubmitted i _ | ToggleAiChat i | ToggleDataMining i
  | UpdateSpeakers i _ | SetPerformance i _ | SetSegregation i _
  | SetSheetStatus i _ | SetDataRepurposed i _ => i
  end.

(** The two edits that flip a flag; the others write a given value. *)
Definition is_toggle (m : Mutation) : bool :=
  match m with
  | ToggleAiChat _ | ToggleDataMining _ => true
  | _ => false
  end.

(** What an inline edit makes of a record whose id it is aimed at. *)
Definition rewrite_record (m : Mutation) (p : Intern) : Intern :=
  match m with
  | SetName _ v => with_name p v
  | SetEmail _ v => with_email p v
  | SetStatusActivity _ v => with_statusActivity p v
  | SetExcelSubmitted _ v => with_excelSubmitted p v
  | ToggleAiChat _ => with_aiChatAdded p (negb (aiChatAdded p))
  | ToggleDataMining _ => with_dataMiningGC p (negb (dataMiningGC p))
  | UpdateSpeakers _ c =>
      let n := Z.max 0 (Z.min 1000 (Qfloor c)) in
      if (speakersTarget p <=? n) && negb (is_exit (segregation p))
      then with_sheetStatus (with_speakersCount p n) Green
      else with_speakersCount p n
  | SetPerformance _ v => with_performance p v
  | SetSegregation _ v =>
      if is_exit v then with_sheetStatus (with_segregation p v) Black
      else with_segregation p v
  | SetSheetStatus _ v => with_sheetStatus p v
  | SetDataRepurposed _ v => with_dataRepurposed p v
  end.

(** What an inline edit makes of any record. *)
Definition edit_record (m : Mutation) (p : Intern) : Intern :=
  if String.eqb (id p) (target_id m) then rewrite_record m p else p.

(** The random numbers of the world are in [0, 1), as those of
    [Math.random] are. *)
Definition unit_world (w : World) : Prop :=
  forall n : nat, (0 <= randoms w n)%Q /\ (randoms w n < 1)%Q.

(** The stores the page goes through: the initial one, and what an inline
    edit or the button that adds rows makes of one.  [ok] is what is known
    of the worlds the seed generator reads. *)
Inductive page_store (ok : World -> Prop) : list Intern -> Prop :=
| store_initial (w : World) :
    ok w -> page_store ok (run initialInterns w)
| store_edit (m : Mutation) (s : list Intern) :
    page_store ok s -> page_store ok (mutate m s)
| store_addRows (w : World) (s : list Intern) :
    ok w -> page_store ok s -> page_store ok (run (addRows s) w).

(** The part of a string after its last dash; the string itself when it
    has none. *)
Fixpoint after_last_dash (s : string) : string :=
  match s with
  | EmptyString => EmptyString
  | String c r =>
      if includes r "-" then after_last_dash r
      else if Ascii.eqb c "-"%char then r
      else s
  end.

End StoreWords.

Section SeedWords.
Import JS Env Tracker.

(** What the seed generator settles for each record it makes: blank name
    and email, the target 100, a Black sheet exactly for an exit
    segregation, a Green sheet when, with no exit segregation, the excel
    sheet is in and one of the two flags is set, a Good performance when
    the count is above 60 and both flags are set; it never makes a record
    on leave or resigned. *)
Definition seed_rules (p : Intern) : Prop :=
  name p = EmptyString /\ email p = EmptyString /\
  speakersTarget p = 100 /\
  (sheetStatus p = Black <-> is_exit (segregation p) = true) /\
  (is_exit (segregation p) = false -> excelSubmitted p = Yes ->
   aiChatAdded p = true \/ dataMiningGC p = true -> sheetStatus p = Green) /\
  (60 < speakersCount p -> aiChatAdded p = true -> dataMiningGC p = true ->
   performance p = Good) /\
  statusActivity p <> Leave /\ segregation p <> Some Resign.

(** The count of a record is in the range the page keeps it in. *)
Definition count_in_range (p : Intern) : Prop :=
  0 <= speakersCount p <= 1000.

End SeedWords.

Section FilterLawWords.
Import JS.

Local Open Scope string_scope.

(** The test of a select: it is on All, or the field has its value. *)
Definition passes_select (filterValue field : string) : bool :=
  if String.eqb filterValue "All" then true else String.eqb field filterValue.

(** The test of the search box, given the fields it looks into. *)
Definition passes_search (search : string) (fields : list string) : bool :=
  let q := toLowerCase (trim search) in
  if negb (truthy q) then true
  else existsb (fun field => includes (toLowerCase field) q) fields.

(** The three tests of the tracker, and those of the CRUD page, as one. *)
Definition tracker_passes (search filterSheet filterPerf : string)
    (i : Tracker.Intern) : bool :=
  passes_select filterSheet (Tracker.SheetStatus_str (Tracker.sheetStatus i))
  && passes_select filterPerf (Tracker.Performance_str (Tracker.performance i))
  && passes_search search
       [Tracker.name i; Tracker.email i; segregation_text i].

Definition crud_passes (search dept status0 : string)
    (i : Crud.Intern) : bool :=
  passes_select dept (Crud.department i)
  && passes_select status0 (Crud.Status_str (Crud.status i))
  && passes_search search
       [Crud.name i; Crud.email i; Crud.mentor i; Crud.department i].

End FilterLawWords.

Section DecodeWords.
Import JS Common.

Local Open Scope string_scope.

(** A reader of the exported file.  It is at the start of a field, inside
    a field, or just after a double quote met inside a field, which ends
    the field unless a second double quote follows. *)
Inductive ReadState : Type := AtField | InField | AfterQuote.

(** Reads [s] in state [st]; [field] is the value read so far of the
    current field, [row] the fields read so far of the current row and
    [rows] the rows read so far.  A field must open with a double quote;
    after its closing double quote only a comma, a line feed or the end of
    the file may come. *)
Fixpoint read_from (s : string) (st : ReadState) (field : string)
    (row : list string) (rows : list (list string))
    : option (list (list string)) :=
  match s with
  | EmptyString =>
      match st with
      | AfterQuote => Some (rows ++ [row ++ [field]])%list
      | AtField | InField => None
      end
  | String c r =>
      match st with
      | AtField =>
          if Ascii.eqb c dquote then read_from r InField "" row rows
          else None
      | InField =>
          if Ascii.eqb c dquote then read_from r AfterQuote field row rows
          else read_from r InField (field ++ String c "") row rows
      | AfterQuote =>
          if Ascii.eqb c dquote
          then read_from r InField (field ++ DQ) row rows
          else if Ascii.eqb c ","%char
          then read_from r AtField "" (row ++ [field])%list rows
          else if Ascii.eqb c linefeed
          then read_from r AtField "" [] (rows ++ [row ++ [field]])%list
          else None
      end
  end.

(** The table a file holds, when it is well formed. *)
Definition read_csv (s : string) : option (list (list string)) :=
  read_from s AtField "" [] [].

End DecodeWords.

Section CrudStatsWords.
Import JS Crud.

(** The number of records of the store with the given status. *)
Definition with_status (s : Status) (l : list Intern) : Z :=
  Z.of_nat
    (List.length
       (filter (fun i => match status i, s with
                         | Active, Active | Offer, Offer
                         | Completed, Completed | Offboarded, Offboarded => true
                         | _, _ => false
                         end) l)).

(** One for the status asked about, zero for the others. *)
Definition one_if_status (s asked : Status) : Z :=
  match s, asked with
  | Active, Active | Offer, Offer
  | Completed, Completed | Offboarded, Offboarded => 1
  | _, _ => 0
  end.

End CrudStatsWords.

Section InitialsWords.
Import JS.

(** The first code unit of each word of a string, a word being a run of
    code units other than the space that no such code unit precedes or
    follows; [fresh] tells that the code unit before the string, if any,
    is a space. *)
Fixpoint word_starts (s : string) (fresh : bool) : list ascii :=
  match s with
  | EmptyString => []
  | String c r =>
      if Ascii.eqb c " "%char then word_starts r true
      else if fresh then c :: word_starts r false
      else word_starts r false
  end.

End InitialsWords.

(* ================================================================== *)
(** * Properties of the primitives *)
(* ================================================================== *)

Section PrimitiveFacts.
Import JS.

Local Open Scope string_scope.

Lemma or_else_empty (s : string) : or_else s "" = s.
Proof.
  unfold or_else, truthy.
  destruct (String.eqb_spec s ""); simpl; congruence.
Qed.

Lemma truthy_false_iff (s : string) : truthy s = false <-> s = "".
Proof.
  unfold truthy. destruct (String.eqb_spec s ""); simpl; split; congruence.
Qed.

Lemma append_nil_r (s : string) : s ++ "" = s.
Proof. induction s; simpl; congruence. Qed.

Lemma append_assoc (a b c : string) : (a ++ b) ++ c = a ++ b ++ c.
Proof. induction a; simpl; congruence. Qed.

Lemma concat_empty_cons (x : string) (l : list string) :
  String.concat "" (x :: l) = x ++ String.concat "" l.
Proof.
  destruct l as [| y l]; cbn [String.concat].
  - now rewrite append_nil_r.
  - reflexivity.
Qed.

Lemma toLowerCase_length (s : string) :
  String.length (toLowerCase s) = String.length s.
Proof. induction s; simpl; congruence. Qed.

Lemma toLowerCase_empty_iff (s : string) : toLowerCase s = "" <-> s = "".
Proof. destruct s; simpl; split; congruence. Qed.

Local Close Scope string_scope.

Lemma ToInt32_wrap32 (x : Z) : ToInt32 x = wrap32 x.
Proof.
  unfold ToInt32, wrap32.
  change (2 ^ 32) with 4294967296. change (2 ^ 31) with 2147483648.
  pose proof (Z.mod_pos_bound x 4294967296 ltac:(lia)) as Hb.
  destruct (Z.ltb_spec (x mod 4294967296) 2147483648) as [Hlt | Hge].
  - symmetry.
    assert (E : (x + 2147483648) mod 4294967296 = x mod 4294967296 + 2147483648).
    { rewrite <- Zplus_mod_idemp_l. apply Z.mod_small. lia. }
    lia.
  - assert (E : (x + 2147483648) mod 4294967296 = x mod 4294967296 - 2147483648).
    { rewrite <- Zplus_mod_idemp_l.
      replace (x mod 4294967296 + 2147483648)
        with (x mod 4294967296 - 2147483648 + 1 * 4294967296) by lia.
      rewrite Z.mod_add by lia. apply Z.mod_small. lia. }
    lia.
Qed.

Lemma wrap32_range (x : Z) : - 2 ^ 31 <= wrap32 x < 2 ^ 31.
Proof.
  unfold wrap32.
  change (2 ^ 32) with 4294967296. change (2 ^ 31) with 2147483648.
  pose proof (Z.mod_pos_bound (x + 2147483648) 4294967296 ltac:(lia)). lia.
Qed.

Lemma wrap32_congr (x y : Z) :
  x mod 2 ^ 32 = y mod 2 ^ 32 -> wrap32 x = wrap32 y.
Proof.
  intros H. unfold wrap32. f_equal.
  rewrite <- (Zplus_mod_idemp_l x), <- (Zplus_mod_idemp_l y). now rewrite H.
Qed.

Lemma wrap32_mod (x : Z) : wrap32 x mod 2 ^ 32 = x mod 2 ^ 32.
Proof.
  unfold wrap32.
  change (2 ^ 32) with 4294967296. change (2 ^ 31) with 2147483648.
  rewrite <- Zminus_mod_idemp_l.
  rewrite Z.mod_mod by lia.
  rewrite Zminus_mod_idemp_l. f_equal. lia.
Qed.

(** [hash << 5] is [hash * 32] wrapped to a signed 32-bit value. *)
Lemma shl_5 (h : Z) : shl h 5 = wrap32 (h * 32).
Proof.
  unfold shl.
  change (ToInt32 5 mod 32) with 5.
  rewrite Z.shiftl_mul_pow2 by lia. change (2 ^ 5) with 32.
  rewrite !ToInt32_wrap32.
  apply wrap32_congr.
  rewrite <- Zmult_mod_idemp_l, wrap32_mod, Zmult_mod_idemp_l.
  reflexivity.
Qed.

End PrimitiveFacts.

(* ================================================================== *)
(** * stringToHue *)
(* ================================================================== *)

Section Hue.
Import JS Common.

Lemma fold_hash_step (codes : list Z) (h : Z) :
  fold_left hash_step codes h = rolling_hash h codes.
Proof.
  revert h. induction codes as [| c rest IH]; intros h; simpl.
  - reflexivity.
  - rewrite IH. unfold hash_step. rewrite shl_5. reflexivity.
Qed.


(** While the hash stays below 2^53 the number arithmetic of the loop is
    exact; a turn moves the hash by less than 2^31 + 2^16 in size. *)
Lemma rolling_hash_growth (codes : list Z) (h : Z) :
  Forall (fun c => 0 <= c < 2 ^ 16) codes ->
  Z.abs (rolling_hash h codes)
  <= Z.abs h + Z.of_nat (List.length codes) * (2 ^ 31 + 2 ^ 16).
Proof.
  intros Hc. revert h.
  induction Hc as [| c rest Hc0 _ IH]; intros h.
  - simpl. lia.
  - cbn [rolling_hash List.length]. specialize (IH (c + (wrap32 (h * 2 ^ 5) - h))).
    pose proof (wrap32_range (h * 2 ^ 5)) as Hw.
    rewrite Nat2Z.inj_succ.
    change (2 ^ 31) with 2147483648 in *. change (2 ^ 16) with 65536 in *.
    lia.
Qed.


Example stringToHue_values :
  Crud.stringToHue "Ava Patel" = 330 /\
  Crud.stringToHue "Liam Johnson" = 16 /\
  Tracker.stringToHue "xxxxxxxxxxxxxxxxxxxx" = 344 /\
  Tracker.stringToHue "" = 0.
Proof. repeat split; vm_compute; reflexivity. Qed.

End Hue.

(* ================================================================== *)
(** * Variant A: the field-consistency rules *)
(* ================================================================== *)

Section TrackerRules.
Import JS Env Tracker.

(** The guard of [updateSpeakers] is the negation of [is_exit]. *)
Lemma updateSpeakers_guard (s : option Segregation) :
  (match s with None => true | Some _ => false end
   || (match s with Some Terminated => false | _ => true end
       && match s with Some Relocated => false | _ => true end))
  = negb (is_exit s).
Proof. destruct s as [[] |]; reflexivity. Qed.

Lemma clamp_floor_range (c : Q) :
  0 <= Math_max 0 (Math_min 1000 (Math_floor c)) <= 1000.
Proof. unfold Math_max, Math_min. lia. Qed.

(** C1, as amended. [updateSpeakers id0 c] keeps the length and the order
    of the store and leaves the records with another id as they are.  In a
    record with id [id0] the speakers count becomes [floor c] clamped to
    [0, 1000]; the sheet status becomes Green when that count reaches the
    target and the segregation is neither Terminated nor Relocated, whatever
    it was before, and keeps its value otherwise (a Green sheet stays Green
    when the count falls below the target); the other fields stay. *)
Theorem updateSpeakers_floor_clamp :
  forall (store : list Intern) (id0 : string) (c : Q) (k : nat) (p : Intern),
    nth_error store k = Some p ->
    exists p',
      nth_error (updateSpeakers id0 c store) k = Some p' /\
      List.length (updateSpeakers id0 c store) = List.length store /\
      if String.eqb (id p) id0 then
        speakersCount p' = Z.max 0 (Z.min 1000 (Qfloor c)) /\
        sheetStatus p' =
          (if (speakersTarget p <=? Z.max 0 (Z.min 1000 (Qfloor c)))
              && negb (is_exit (segregation p))
           then Green else sheetStatus p) /\
        same_but_count_and_sheet p p'
      else p' = p.
Proof.
  intros store id0 c k p Hk.
  unfold updateSpeakers.
  rewrite nth_error_map, Hk, length_map. simpl.
  eexists. split; [reflexivity |]. split; [reflexivity |].
  destruct (String.eqb (id p) id0); simpl; [| reflexivity].
  rewrite updateSpeakers_guard. rewrite Z.geb_leb.
  unfold Math_max, Math_min, Math_floor.
  destruct ((speakersTarget p <=? Z.max 0 (Z.min 1000 (Qfloor c)))
            && negb (is_exit (segregation p)));
    simpl; unfold same_but_count_and_sheet; simpl; intuition reflexivity.
Qed.

Lemma updateSpeakers_floor_clamp_witness :
  option_map (fun p' => (speakersCount p', sheetStatus p'))
    (nth_error
       (updateSpeakers "7-0" (120 # 1) [sample "7-0" 50 None Red]) 0)
  = Some (120, Green).
Proof.
  destruct (updateSpeakers_floor_clamp [sample "7-0" 50 None Red] "7-0"
              (120 # 1) 0 (sample "7-0" 50 None Red) eq_refl)
    as [p' [Hn [_ H]]].
  rewrite Hn. simpl in H. destruct H as [Hc [Hs _]].
  simpl. rewrite Hc, Hs. reflexivity.
Defined.

(** C1, as stated, fails on a fractional count: for 5/2 the record gets the
    count 2, which is not 5/2 clamped to [0, 1000]. *)
Lemma updateSpeakers_fraction_not_clamped :
  List.map speakersCount
    (updateSpeakers "7-0" (5 # 2) [sample "7-0" 50 None Red]) = [2] /\
  ~ stores_clamped_argument "7-0" (5 # 2) [sample "7-0" 50 None Red].
Proof.
  split; [reflexivity |].
  intros H.
  specialize (H 0%nat (sample "7-0" 50 None Red) _ eq_refl eq_refl eq_refl).
  vm_compute in H. discriminate H.
Qed.

(** A count that falls below the target leaves a Green sheet Green, and a
    count at the target turns a Black sheet Green when the segregation
    does not forbid it. *)
Example updateSpeakers_one_way :
  List.map sheetStatus
    (updateSpeakers "7-0" (3 # 1) [sample "7-0" 120 None Green]) = [Green] /\
  List.map sheetStatus
    (updateSpeakers "7-0" (100 # 1) [sample "7-0" 0 (Some Warning) Black])
  = [Green] /\
  List.map sheetStatus
    (updateSpeakers "7-0" (100 # 1) [sample "7-0" 0 (Some Relocated) Black])
  = [Black].
Proof. repeat split. Qed.

(** C2. [setSegregation id0 v] keeps the length and the order of the store
    and leaves the records with another id as they are.  In a record with
    id [id0] the segregation becomes [v]; the sheet status becomes Black
    when [v] is Terminated or Relocated, whatever it was before, and keeps
    its value for any other [v] (Resign, Warning or none), also when a
    segregation that is now cleared had made it Black; the other fields
    stay. *)
Theorem setSegregation_forces_black :
  forall (store : list Intern) (id0 : string) (v : option Segregation)
         (k : nat) (p : Intern),
    nth_error store k = Some p ->
    exists p',
      nth_error (setSegregation id0 v store) k = Some p' /\
      List.length (setSegregation id0 v store) = List.length store /\
      if String.eqb (id p) id0 then
        segregation p' = v /\
        sheetStatus p' =
          match v with
          | Some Terminated | Some Relocated => Black
          | Some Resign | Some Warning | None => sheetStatus p
          end /\
        same_but_segregation_and_sheet p p'
      else p' = p.
Proof.
  intros store id0 v k p Hk.
  unfold setSegregation.
  rewrite nth_error_map, Hk, length_map. simpl.
  eexists. split; [reflexivity |]. split; [reflexivity |].
  destruct (String.eqb (id p) id0); simpl; [| reflexivity].
  unfold same_but_segregation_and_sheet.
  destruct v as [[] |]; simpl; intuition reflexivity.
Qed.

Lemma setSegregation_forces_black_witness :
  option_map (fun p' => (segregation p', sheetStatus p'))
    (nth_error
       (setSegregation "7-0" (Some Terminated) [sample "7-0" 120 None Green])
       0)
  = Some (Some Terminated, Black).
Proof.
  destruct (setSegregation_forces_black [sample "7-0" 120 None Green] "7-0"
              (Some Terminated) 0 (sample "7-0" 120 None Green) eq_refl)
    as [p' [Hn [_ H]]].
  rewrite Hn. simpl in H. destruct H as [Hv [Hs _]].
  simpl. rewrite Hv, Hs. reflexivity.
Defined.

(** Clearing an exit segregation leaves the Black sheet it had forced. *)
Example setSegregation_one_way :
  List.map sheetStatus
    (setSegregation "7-0" None
       (setSegregation "7-0" (Some Relocated) [sample "7-0" 120 None Green]))
  = [Black].
Proof. reflexivity. Qed.

End TrackerRules.

(* ================================================================== *)
(** * Variant A: exit segregations and Black sheets *)
(* ================================================================== *)

Section TrackerInvariant.
Import JS Env Tracker.

(** The record the seed generator pushes satisfies the invariant. *)
Lemma seed_intern_exit_is_black (i : Z) (w : World) :
  exit_is_black (fst (seed_intern i w)).
Proof.
  unfold seed_intern, bind, Math_random, Date_now, ret, exit_is_black.
  cbn [randoms clock].
  repeat match goal with
         | |- context [if ?b then _ else _] =>
             destruct b eqn:?; cbn [fst snd is_exit segregation sheetStatus]
         end;
    cbn in *; congruence.
Qed.

Lemma seed_loop_exit_is_black (n : nat) :
  forall (i : Z) (out : list Intern) (w : World),
    Forall exit_is_black out ->
    Forall exit_is_black (fst (seed_loop n i out w)).
Proof.
  induction n as [| n IH]; intros i out w Hout.
  - exact Hout.
  - cbn [seed_loop]. unfold bind at 1.
    pose proof (seed_intern_exit_is_black i w) as Hp.
    destruct (seed_intern i w) as [p w'].
    apply IH. apply Forall_app. split; [exact Hout |].
    constructor; [exact Hp | constructor].
Qed.

Lemma generateSeedInterns_exit_is_black (count : Z) (w : World) :
  Forall exit_is_black (run (generateSeedInterns count) w).
Proof.
  unfold run, generateSeedInterns.
  apply seed_loop_exit_is_black. constructor.
Qed.

(** An edit that rewrites one record at a time keeps the invariant when
    its rewriting does, on the records of the store. *)
Lemma map_keeps_exit_is_black (f : Intern -> Intern) (s : list Intern) :
  (forall p, In p s -> exit_is_black p -> exit_is_black (f p)) ->
  Forall exit_is_black s -> Forall exit_is_black (List.map f s).
Proof.
  intros Hf Hs. rewrite Forall_forall in *.
  intros q Hq. apply in_map_iff in Hq. destruct Hq as [p [<- Hp]].
  apply Hf; [exact Hp | apply Hs; exact Hp].
Qed.

Lemma mutate_keeps_exit_is_black (m : Mutation) (s : list Intern) :
  spares_exits m s ->
  Forall exit_is_black s -> Forall exit_is_black (mutate m s).
Proof.
  intros Hm.
  destruct m; cbn [mutate];
    unfold setName, setEmail, setStatusActivity, setExcelSubmitted,
      toggleAiChat, toggleDataMining, updateSpeakers, setPerformance,
      setSegregation, setSheetStatus, setDataRepurposed;
    apply map_keeps_exit_is_black; intros p Hin Hp;
    destruct (String.eqb_spec (id p) id0) as [Hid | Hid];
    cbn [negb]; try exact Hp.
  - (* updateSpeakers *)
    rewrite updateSpeakers_guard. cbn [segregation with_speakersCount].
    destruct (is_exit (segregation p)) eqn:Hx.
    + rewrite andb_false_r. exact Hp.
    + unfold exit_is_black. cbn. destruct (_ >=? _); cbn; congruence.
  - (* setSegregation *)
    unfold exit_is_black.
    destruct (is_exit v) eqn:Hv; cbn; [reflexivity | congruence].
  - (* setSheetStatus *)
    unfold exit_is_black. cbn.
    destruct Hm as [-> | Hm]; [reflexivity |].
    rewrite (Hm p Hin Hid). discriminate.
Qed.

(** C3, as amended. In every store reached from the output of the seed
    generator by the inline edits, a record whose segregation is Terminated
    or Relocated has a Black sheet, as long as no direct [setSheetStatus] to
    a value other than Black is aimed at the id of such a record. *)
Theorem exit_is_black_while_spared :
  forall s : list Intern,
    reachable_sparing s ->
    forall p, In p s ->
      segregation p = Some Terminated \/ segregation p = Some Relocated ->
      sheetStatus p = Black.
Proof.
  intros s Hs.
  assert (Hall : Forall exit_is_black s).
  { induction Hs as [count w | m s Hs IH Hm].
    - apply generateSeedInterns_exit_is_black.
    - apply mutate_keeps_exit_is_black; assumption. }
  intros p Hin Hseg. rewrite Forall_forall in Hall.
  apply (Hall p Hin). destruct Hseg as [-> | ->]; reflexivity.
Qed.

Lemma exit_is_black_while_spared_witness :
  List.map segregation spared_store = [Some Terminated] /\
  sheetStatus (hd (sample "" 0 None Red) spared_store) = Black.
Proof.
  split; [vm_compute; reflexivity |].
  apply (exit_is_black_while_spared spared_store).
  - unfold spared_store.
    apply spare_mutate; [apply spare_mutate; [apply spare_seed | exact I] |].
    left. reflexivity.
  - vm_compute. left. reflexivity.
  - left. vm_compute. reflexivity.
Defined.

(** C3, as stated, fails: the seed generator yields a Terminated record
    with a Black sheet, and a direct [setSheetStatus] to Green leaves it
    Terminated with a Green sheet. *)
Lemma setSheetStatus_breaks_exit_is_black :
  List.map (fun p => (id p, segregation p, sheetStatus p))
    (run (generateSeedInterns 1) world98)
  = [("7-0"%string, Some Terminated, Black)] /\
  List.map (fun p => (id p, segregation p, sheetStatus p))
    (setSheetStatus "7-0" Green (run (generateSeedInterns 1) world98))
  = [("7-0"%string, Some Terminated, Green)] /\
  ~ (forall s : list Intern,
       reachable s ->
       forall p, In p s ->
         segregation p = Some Terminated \/ segregation p = Some Relocated ->
         sheetStatus p = Black).
Proof.
  split; [vm_compute; reflexivity |].
  split; [vm_compute; reflexivity |].
  intros H.
  specialize (H (mutate (SetSheetStatus "7-0" Green)
                   (run (generateSeedInterns 1) world98))
                (reach_mutate _ _ (reach_seed 1 world98))).
  specialize (H (hd (sample "" 0 None Red)
                   (mutate (SetSheetStatus "7-0" Green)
                      (run (generateSeedInterns 1) world98)))).
  vm_compute in H.
  specialize (H (or_introl eq_refl) (or_introl eq_refl)).
  discriminate H.
Qed.

End TrackerInvariant.

(* ================================================================== *)
(** * Filtering and search *)
(* ================================================================== *)

Section Filtering.
Import JS.

Local Open Scope string_scope.

Lemma filter_Subsequence {A : Type} (f : A -> bool) (l : list A) :
  Subsequence (filter f l) l.
Proof.
  induction l as [| x l IH]; simpl.
  - constructor.
  - destruct (f x); constructor; exact IH.
Qed.

Lemma Subsequence_trans {A : Type} (l1 l2 l3 : list A) :
  Subsequence l1 l2 -> Subsequence l2 l3 -> Subsequence l1 l3.
Proof.
  intros H12 H23. revert l1 H12.
  induction H23 as [| x l2 l3 H23 IH | x l2 l3 H23 IH]; intros l1 H12.
  - exact H12.
  - inversion H12; subst.
    + constructor. apply IH. assumption.
    + apply sub_drop. apply IH. assumption.
  - apply sub_drop. apply IH. exact H12.
Qed.

Lemma filter_all {A : Type} (f : A -> bool) (l : list A) :
  (forall x, f x = true) -> filter f l = l.
Proof.
  intros Hf. induction l as [| x l IH]; simpl.
  - reflexivity.
  - rewrite Hf, IH. reflexivity.
Qed.

Lemma prefix_iff (q s : string) :
  String.prefix q s = true <-> exists post, s = q ++ post.
Proof.
  revert s. induction q as [| c q IH]; intros s.
  - split; [intros _; exists s; reflexivity | intros _; destruct s; reflexivity].
  - destruct s as [| d s]; simpl.
    + split; [discriminate | intros [post H]; discriminate].
    + destruct (Ascii.ascii_dec c d) as [-> | Hcd].
      * rewrite IH. split; intros [post H]; exists post.
        -- now rewrite H.
        -- now inversion H.
      * split; [discriminate |].
        intros [post H]. inversion H. congruence.
Qed.

Lemma includes_iff (s q : string) :
  includes s q = true <-> exists pre post, s = pre ++ q ++ post.
Proof.
  induction s as [| c s IH].
  - cbn [includes]. destruct (String.prefix q "") eqn:Hp.
    + split; [intros _ | reflexivity].
      apply prefix_iff in Hp. destruct Hp as [post Hp].
      exists "", post. exact Hp.
    + split; [discriminate |].
      intros [pre [post H]].
      destruct pre; [| discriminate].
      assert (Hq : String.prefix q "" = true)
        by (apply prefix_iff; exists post; exact H).
      congruence.
  - cbn [includes]. destruct (String.prefix q (String c s)) eqn:Hp.
    + split; [intros _ | reflexivity].
      apply prefix_iff in Hp. destruct Hp as [post Hp].
      exists "", post. exact Hp.
    + rewrite IH. split.
      * intros [pre [post H]]. exists (String c pre), post.
        simpl. now rewrite H.
      * intros [pre [post H]]. destruct pre as [| d pre].
        -- assert (Hq : String.prefix q (String c s) = true)
             by (apply prefix_iff; exists post; exact H).
           congruence.
        -- exists pre, post. simpl in H. now inversion H.
Qed.

(** The search test of both pages: the field, lower-cased, includes the
    trimmed and lower-cased search text. *)
Lemma includes_contains_ci (field search : string) :
  includes (toLowerCase field) (toLowerCase (trim search)) = true
  <-> contains_ci field (trim search).
Proof. apply includes_iff. Qed.

Lemma query_falsy_iff (search : string) :
  negb (truthy (toLowerCase (trim search))) = true <-> trim search = "".
Proof.
  rewrite negb_true_iff, truthy_false_iff. apply toLowerCase_empty_iff.
Qed.

Lemma eqb_All_or (filterValue field : string) :
  (if String.eqb filterValue "All" then true
   else String.eqb field filterValue) = true
  <-> filterValue = "All" \/ field = filterValue.
Proof.
  destruct (String.eqb_spec filterValue "All") as [-> | Hne].
  - split; [now left | reflexivity].
  - rewrite String.eqb_eq. split; [now right | intros [H | H]; congruence].
Qed.

Lemma search_test_iff (search : string) (found : bool) :
  (if negb (truthy (toLowerCase (trim search))) then true else found) = true
  <-> trim search = "" \/ found = true.
Proof.
  destruct (negb (truthy (toLowerCase (trim search)))) eqn:Hq.
  - apply query_falsy_iff in Hq. split; [now left | reflexivity].
  - split; [now right |].
    intros [H | H]; [| exact H].
    apply query_falsy_iff in H. congruence.
Qed.

Lemma tracker_filtered_presort_In (R : list Tracker.Intern)
    (search filterSheet filterPerf : string) (i : Tracker.Intern) :
  In i (Tracker.filtered_presort R search filterSheet filterPerf)
  <-> In i R /\ tracker_matches search filterSheet filterPerf i.
Proof.
  unfold Tracker.filtered_presort, tracker_matches.
  rewrite !filter_In, search_test_iff, !eqb_All_or, !orb_true_iff.
  rewrite !or_else_empty, !includes_contains_ci.
  replace (nullish (option_map Tracker.Segregation_str (Tracker.segregation i)) "")
    with (segregation_text i)
    by (unfold segregation_text; destruct (Tracker.segregation i); reflexivity).
  tauto.
Qed.

Lemma crud_filtered_presort_In (R : list Crud.Intern)
    (search dept status0 : string) (i : Crud.Intern) :
  In i (Crud.filtered_presort R search dept status0)
  <-> In i R /\ crud_matches search dept status0 i.
Proof.
  unfold Crud.filtered_presort, crud_matches.
  rewrite !filter_In, search_test_iff, !eqb_All_or, !orb_true_iff.
  rewrite !includes_contains_ci.
  tauto.
Qed.

(** C4. In both pages the filters return a subsequence of the records; a
    record is returned exactly when it passes every select that is not on
    All and, when the trimmed search text is not empty, one of the searched
    fields (name, email and segregation in the tracker; name, email, mentor
    and department in the CRUD page) contains it, letter case left aside.
    With every select on All and an empty search text the result, before
    the sort, is the list of records in its order. *)
Theorem filtered_presort_subsequence_of_matches :
  forall (RA : list Tracker.Intern) (RB : list Crud.Intern)
         (search filter1 filter2 : string),
    (Subsequence (Tracker.filtered_presort RA search filter1 filter2) RA /\
     (forall i,
        In i (Tracker.filtered_presort RA search filter1 filter2)
        <-> In i RA /\ tracker_matches search filter1 filter2 i) /\
     Tracker.filtered_presort RA "" "All" "All" = RA) /\
    (Subsequence (Crud.filtered_presort RB search filter1 filter2) RB /\
     (forall i,
        In i (Crud.filtered_presort RB search filter1 filter2)
        <-> In i RB /\ crud_matches search filter1 filter2 i) /\
     Crud.filtered_presort RB "" "All" "All" = RB).
Proof.
  intros RA RB search filter1 filter2. split; split.
  - unfold Tracker.filtered_presort.
    eapply Subsequence_trans; [apply filter_Subsequence |].
    eapply Subsequence_trans; apply filter_Subsequence.
  - split; [intros i; apply tracker_filtered_presort_In |].
    unfold Tracker.filtered_presort. now rewrite !filter_all.
  - unfold Crud.filtered_presort.
    eapply Subsequence_trans; [apply filter_Subsequence |].
    eapply Subsequence_trans; apply filter_Subsequence.
  - split; [intros i; apply crud_filtered_presort_In |].
    unfold Crud.filtered_presort. now rewrite !filter_all.
Qed.

(** The sort of [filtered] reorders the records the filters return: when
    [sort] permutes its argument, [filtered] holds the matching records. *)
Lemma tracker_filtered_In (sort : list Tracker.Intern -> list Tracker.Intern)
    (R : list Tracker.Intern) (search filterSheet filterPerf : string) :
  (forall l x, In x (sort l) <-> In x l) ->
  forall i,
    In i (Tracker.filtered sort R search filterSheet filterPerf)
    <-> In i R /\ tracker_matches search filterSheet filterPerf i.
Proof.
  intros Hsort i. unfold Tracker.filtered.
  rewrite Hsort. apply tracker_filtered_presort_In.
Qed.

(** Two records of the CRUD page and the searches that find them. *)
Example crud_search_examples :
  let R := Crud.seedInterns "2024-05-01" "2024-04-01" "2024-02-01" "2024-04-24" in
  List.map Crud.id (Crud.filtered_presort R "  NGUYEN " "All" "All") = ["1"] /\
  List.map Crud.id (Crud.filtered_presort R "" "Engineering" "All") = ["1"; "4"] /\
  List.map Crud.id (Crud.filtered_presort R "a" "Engineering" "Offer") = ["4"] /\
  List.map Crud.id (Crud.filtered_presort R "   " "All" "All")
  = ["1"; "2"; "3"; "4"].
Proof. repeat split. Qed.

Example tracker_search_examples :
  let R := [ Tracker.mkIntern "7-0" "Ann" "ann@x.org" Tracker.Active Tracker.Yes
               true true 10 100 Tracker.Good (Some Tracker.Warning)
               Tracker.Red Tracker.No;
             Tracker.mkIntern "7-1" "Bob" "" Tracker.Active Tracker.No
               false true 10 100 Tracker.Weak None Tracker.Green Tracker.No ] in
  List.map Tracker.id (Tracker.filtered_presort R "WARN" "All" "All") = ["7-0"] /\
  List.map Tracker.id (Tracker.filtered_presort R "" "Green" "All") = ["7-1"] /\
  List.map Tracker.id (Tracker.filtered_presort R "b" "All" "Good") = [] /\
  List.map Tracker.id (Tracker.filtered_presort R "" "All" "All")
  = ["7-0"; "7-1"].
Proof. repeat split. Qed.

End Filtering.

(* ================================================================== *)
(** * Pagination *)
(* ================================================================== *)

Section Pagination.
Import JS Tracker.

(** With indices inside the array side of zero, [slice] takes [stop -
    start] elements after dropping [start]. *)
Lemma slice_firstn_skipn {A : Type} (a : list A) (start stop : Z) :
  0 <= start -> start <= stop ->
  slice a start stop
  = firstn (Z.to_nat (stop - start)) (skipn (Z.to_nat start) a).
Proof.
  intros H0 Hle. unfold slice.
  destruct (Z.ltb_spec start 0) as [? | _]; [lia |].
  destruct (Z.ltb_spec stop 0) as [? | _]; [lia |].
  set (len := Z.of_nat (List.length a)).
  destruct (Z.le_gt_cases len start) as [Hout | Hin].
  - rewrite (Z.min_r start len), (Z.min_r stop len) by lia.
    rewrite Z.sub_diag. simpl.
    rewrite (skipn_all2 a (n := Z.to_nat start)) by (unfold len in Hout; lia).
    now rewrite firstn_nil.
  - rewrite (Z.min_l start len) by lia.
    destruct (Z.le_gt_cases stop len) as [Hs | Hs].
    + rewrite (Z.min_l stop len) by lia. reflexivity.
    + rewrite (Z.min_r stop len) by lia.
      assert (Hlen : List.length (skipn (Z.to_nat start) a)
                     = Z.to_nat (len - start))
        by (rewrite length_skipn; unfold len; lia).
      rewrite <- Hlen, firstn_all.
      symmetry. apply firstn_all2. lia.
Qed.

(** The ceiling of the quotient of two integers, the divisor positive, is
    the integer [c] with [(c - 1) * d < n <= c * d]. *)
Lemma Math_ceil_quotient (n d : Z) :
  0 < d ->
  (Math_ceil (inject_Z n / inject_Z d) - 1) * d < n
  <= Math_ceil (inject_Z n / inject_Z d) * d.
Proof.
  intros Hd. unfold Math_ceil, Qceiling.
  assert (E : Qfloor (- (inject_Z n / inject_Z d)) = (- n) / d).
  { rewrite Zdiv_Qdiv. apply Qfloor_comp.
    rewrite inject_Z_opp. unfold Qdiv. ring. }
  rewrite E.
  pose proof (Z.div_mod (- n) d ltac:(lia)) as Hdm.
  pose proof (Z.mod_pos_bound (- n) d Hd) as Hb.
  nia.
Qed.

Lemma totalPages_ceiling (l : list Intern) (s : Z) :
  0 < s ->
  exists c : Z,
    totalPages l s = Z.max 1 c /\
    (c - 1) * s < Z.of_nat (List.length l) <= c * s.
Proof.
  intros Hs.
  exists (Math_ceil (inject_Z (Z.of_nat (List.length l)) / inject_Z s)).
  split; [reflexivity | apply Math_ceil_quotient; exact Hs].
Qed.

(** The pages cover the list: [totalPages] pages of size [s] reach its
    end, and one page less does not, unless the list is empty. *)
Lemma totalPages_bounds (l : list Intern) (s : Z) :
  0 < s ->
  1 <= totalPages l s /\
  Z.of_nat (List.length l) <= totalPages l s * s /\
  (totalPages l s - 1) * s <= Z.of_nat (List.length l) /\
  (Z.of_nat (List.length l) <> 0 ->
   (totalPages l s - 1) * s < Z.of_nat (List.length l)).
Proof.
  intros Hs. destruct (totalPages_ceiling l s Hs) as [c [-> Hc]].
  pose proof (Nat2Z.is_nonneg (List.length l)). nia.
Qed.

Lemma paginated_firstn_skipn (l : list Intern) (p s : Z) :
  1 <= p -> 0 < s ->
  paginated l p s
  = firstn (Z.to_nat s) (skipn (Z.to_nat ((p - 1) * s)) l).
Proof.
  intros Hp Hs. unfold paginated.
  rewrite slice_firstn_skipn by nia.
  f_equal. f_equal. lia.
Qed.

Lemma paginated_length (l : list Intern) (p s : Z) :
  1 <= p -> 0 < s ->
  Z.of_nat (List.length (paginated l p s))
  = Z.max 0 (Z.min s (Z.of_nat (List.length l) - (p - 1) * s)).
Proof.
  intros Hp Hs. rewrite paginated_firstn_skipn by assumption.
  rewrite length_firstn, length_skipn.
  assert (0 <= (p - 1) * s) by nia. lia.
Qed.

(** Pages of [n] elements, cut one after the other, give the list back
    once they reach its end. *)
Lemma concat_pages {A : Type} (n : nat) :
  forall (k : nat) (l : list A),
    (List.length l <= k * n)%nat ->
    List.concat (List.map (fun i => firstn n (skipn (i * n) l)) (seq 0 k)) = l.
Proof.
  intros k. induction k as [| k IH]; intros l Hl.
  - destruct l; [reflexivity | simpl in Hl; lia].
  - rewrite <- cons_seq, <- seq_shift, map_cons, map_map. cbn [List.concat].
    rewrite Nat.mul_0_l. cbn [skipn].
    transitivity (firstn n l ++ skipn n l); [| apply firstn_skipn].
    f_equal.
    transitivity
      (List.concat
         (List.map (fun i => firstn n (skipn (i * n) (skipn n l))) (seq 0 k)));
      [| apply IH; rewrite length_skipn; lia].
    f_equal. apply map_ext. intros i.
    rewrite skipn_skipn. do 2 f_equal. lia.
Qed.

(** C5. For a page number [p] from 1 and a positive page size [s],
    [paginated] is the slice from [(p - 1) * s] to [p * s] of the filtered
    list; [totalPages] is the larger of 1 and the ceiling [c] of the length
    over [s]; every page before the last holds [s] records and the last
    holds the rest, [length - s * (totalPages - 1)]; the pages 1 to
    [totalPages], one after the other, are the filtered list. *)
Theorem paginated_slices_and_covers :
  forall (l : list Intern) (p s : Z),
    1 <= p -> 0 < s ->
    paginated l p s
    = firstn (Z.to_nat (p * s - (p - 1) * s))
        (skipn (Z.to_nat ((p - 1) * s)) l) /\
    (exists c : Z,
       totalPages l s = Z.max 1 c /\
       (c - 1) * s < Z.of_nat (List.length l) <= c * s) /\
    (forall q : Z,
       1 <= q < totalPages l s ->
       Z.of_nat (List.length (paginated l q s)) = s) /\
    Z.of_nat (List.length (paginated l (totalPages l s) s))
    = Z.of_nat (List.length l) - s * (totalPages l s - 1) /\
    List.concat (List.map (fun q => paginated l q s) (pageNumbers (totalPages l s)))
    = l.
Proof.
  intros l p s Hp Hs.
  pose proof (totalPages_bounds l s Hs) as [Ht1 [Hup [Hlo _]]].
  split.
  { rewrite paginated_firstn_skipn by assumption. do 2 f_equal. lia. }
  split; [apply totalPages_ceiling; exact Hs |].
  split.
  { intros q Hq. rewrite paginated_length by lia. nia. }
  split.
  { rewrite paginated_length by lia. nia. }
  unfold pageNumbers. rewrite map_map.
  rewrite <- (concat_pages (Z.to_nat s) (Z.to_nat (totalPages l s)) l) at 2
    by nia.
  f_equal. apply map_ext_in. intros i Hi. apply in_seq in Hi.
  rewrite paginated_firstn_skipn by lia.
  do 2 f_equal. nia.
Qed.

Lemma paginated_slices_and_covers_witness :
  List.map id (paginated five 2 2) = ["c"; "d"]%string /\
  totalPages five 2 = 3 /\
  List.map id (paginated five 3 2) = ["e"]%string /\
  List.concat (List.map (fun q => paginated five q 2) [1; 2; 3]) = five.
Proof.
  destruct (paginated_slices_and_covers five 2 2 ltac:(lia) ltac:(lia))
    as [Hslice [_ [_ [_ Hcat]]]].
  split; [rewrite Hslice; reflexivity |].
  split; [reflexivity |].
  split; [reflexivity |].
  exact Hcat.
Defined.

(** Past the last page the slice is empty, and an empty list has one
    page, which is empty. *)
Example paginated_edges :
  paginated five 4 2 = [] /\ totalPages [] 25 = 1 /\ paginated [] 1 25 = [] /\
  totalPages five 5 = 1 /\ totalPages five 25 = 1.
Proof. repeat split. Qed.

End Pagination.

(* ================================================================== *)
(** * The page controls *)
(* ================================================================== *)

Section PageControls.
Import JS Tracker.

(** C6. From a page [p >= 1], with [t >= 1] pages in all, Prev yields
    [max 1 (p - 1)] and Next yields [min t (p + 1)]; both saturate (Prev at
    1, Next at [t]).  Next lands in [1, t] and Prev in [1, p], so a page of
    [1, t] stays in [1, t]; from a page past [t] Prev need not land in
    [1, t].  Whatever the page, a change of the page size sets the page
    to 1. *)
Theorem page_controls_saturate :
  forall p t : Z,
    1 <= p -> 1 <= t ->
    prevPage p = Z.max 1 (p - 1) /\
    nextPage t p = Z.min t (p + 1) /\
    prevPage 1 = 1 /\
    nextPage t t = t /\
    1 <= prevPage p <= p /\
    1 <= nextPage t p <= t /\
    (p <= t -> 1 <= prevPage p <= t) /\
    (forall (n : Z) (st : Paging),
       page (onPageSizeChange n st) = 1 /\
       pageSize (onPageSizeChange n st) = n).
Proof.
  intros p t Hp Ht. unfold prevPage, nextPage, Math_max, Math_min.
  repeat split; try lia.
Qed.

Lemma page_controls_saturate_witness :
  prevPage 3 = 2 /\ nextPage 3 3 = 3 /\
  page (onPageSizeChange 25 (mkPaging 3 50)) = 1.
Proof.
  destruct (page_controls_saturate 3 3 ltac:(lia) ltac:(lia))
    as [Hprev [Hnext [_ [_ [_ [_ [_ Hsize]]]]]]].
  split; [rewrite Hprev; reflexivity |].
  split; [rewrite Hnext; reflexivity |].
  apply (Hsize 25 (mkPaging 3 50)).
Defined.

(** The controls as handlers of the view state. *)
Lemma paging_handlers (t : Z) (st : Paging) :
  page (onPrev st) = prevPage (page st) /\
  page (onNext t st) = nextPage t (page st) /\
  pageSize (onPrev st) = pageSize st /\
  pageSize (onNext t st) = pageSize st.
Proof. repeat split. Qed.

(** Prev does not keep every page [p >= 1] within [1, t].  Nothing resets
    the page when the filters shrink the list, so the page can be past the
    last one: with 550 records and 50 a page there are 11 pages, and ten
    Next lead from page 1 to page 11; a search that no record matches
    leaves the one page of the empty list, and the page is still 11; Prev
    then yields 10, which is not in [1, 1]. *)
Lemma prev_beyond_last_page :
  totalPages (repeat (sample "a" 0 None Red) 550) 50 = 11 /\
  Nat.iter 10 (onNext 11) initialPaging = mkPaging 11 50 /\
  totalPages
    (filtered_presort (repeat (sample "a" 0 None Red) 550) "zzz" "All" "All")
    50 = 1 /\
  prevPage 11 = 10 /\
  ~ (forall p t : Z,
       1 <= p -> 1 <= t ->
       1 <= prevPage p <= t /\ 1 <= nextPage t p <= t).
Proof.
  split; [vm_compute; reflexivity |].
  split; [vm_compute; reflexivity |].
  split; [vm_compute; reflexivity |].
  split; [reflexivity |].
  intros H. destruct (H 11 1 ltac:(lia) ltac:(lia)) as [[_ Hprev] _].
  vm_compute in Hprev. apply Hprev. reflexivity.
Qed.

(** Past the last page, Next brings the page back to it and Prev goes
    down one page at a time. *)
Example page_above_range : prevPage 5 = 4 /\ nextPage 2 5 = 2.
Proof. split; reflexivity. Qed.

End PageControls.

(* ================================================================== *)
(** * CSV export *)
(* ================================================================== *)

Section Csv.
Import JS Common.

Local Open Scope string_scope.

Lemma replaceAll_double_quotes (s : string) :
  replaceAll s dquote (DQ ++ DQ) = double_quotes s.
Proof.
  induction s as [| c r IH]; cbn [replaceAll double_quotes].
  - reflexivity.
  - rewrite IH. destruct (Ascii.eqb c dquote); reflexivity.
Qed.

Lemma quote_cell_quoted (x : Cell) : quote_cell x = quoted (String_ x).
Proof. unfold quote_cell, quoted. now rewrite replaceAll_double_quotes. Qed.

Lemma double_quotes_empty (s : string) : double_quotes s = "" -> s = "".
Proof.
  destruct s as [| c r]; simpl; [reflexivity |].
  destruct (Ascii.eqb c dquote); discriminate.
Qed.

(** Doubling the double quotes loses nothing. *)
Lemma single_quotes_double_quotes (s : string) :
  single_quotes (double_quotes s) = s.
Proof.
  induction s as [| c r IH]; [reflexivity |].
  cbn [double_quotes].
  destruct (Ascii.eqb c dquote) eqn:Hc.
  - apply Ascii.eqb_eq in Hc. subst c.
    cbn [single_quotes]. rewrite Ascii.eqb_refl. cbn [andb].
    now rewrite IH.
  - cbn [single_quotes]. rewrite Hc. cbn [andb].
    destruct (double_quotes r) eqn:Hd.
    + apply double_quotes_empty in Hd. now subst r.
    + rewrite <- Hd at 1. rewrite <- IH at 2. rewrite Hd. reflexivity.
Qed.

(** Joining with line feeds puts the first row first and a line feed
    before every other row, and none at the end. *)
Lemma join_LF_cons (first : string) (others : list string) :
  join LF (first :: others)
  = first ++ String.concat "" (List.map (fun x => LF ++ x) others).
Proof.
  unfold join. revert first.
  induction others as [| x others IH]; intros first.
  - cbn. now rewrite append_nil_r.
  - change (String.concat LF (first :: x :: others))
      with (first ++ LF ++ String.concat LF (x :: others)).
    rewrite IH. cbn [List.map].
    rewrite concat_empty_cons, append_assoc. reflexivity.
Qed.

Lemma map_String_cells (values : list string) :
  List.map String_ (List.map CStr values) = values.
Proof. rewrite map_map. cbn [String_]. apply map_id. Qed.

Lemma tracker_body_row (r : Tracker.Intern) :
  List.map String_ (Tracker.body_row r) = tracker_display r.
Proof.
  unfold Tracker.body_row, tracker_display, yes_no. cbn [List.map String_].
  destruct (Tracker.segregation r); reflexivity.
Qed.

Lemma crud_body_row (r : Crud.Intern) :
  List.map String_ (Crud.body_row r) = crud_display r.
Proof. reflexivity. Qed.

Lemma csv_of_table_rows (table : list (list Cell)) :
  csv_of_table table
  = join LF (List.map (fun r => csv_row (List.map String_ r)) table).
Proof.
  unfold csv_of_table, csv_row. f_equal. apply map_ext. intros r.
  f_equal. rewrite map_map. apply map_ext. exact quote_cell_quoted.
Qed.

Lemma tracker_csv_document (rows : list Tracker.Intern) :
  Tracker.csv rows
  = csv_document tracker_columns (List.map tracker_display rows).
Proof.
  unfold Tracker.csv, csv_document. rewrite csv_of_table_rows.
  cbn [List.map]. f_equal. f_equal.
  rewrite !map_map. apply map_ext. intros r. now rewrite tracker_body_row.
Qed.

Lemma crud_csv_document (rows : list Crud.Intern) :
  Crud.csv rows = csv_document crud_columns (List.map crud_display rows).
Proof.
  unfold Crud.csv, csv_document. rewrite csv_of_table_rows.
  cbn [List.map]. f_equal. f_equal.
  rewrite !map_map. apply map_ext. intros r. now rewrite crud_body_row.
Qed.

(** C7. In both pages the content of the exported file is the header row
    of column names followed by one row per record, in order, each after a
    line feed; a row is its fields joined by commas; a field is the display
    string of the value (Yes or No for a boolean, the empty string for an
    absent segregation, what [String] makes of a number) between double
    quotes, each double quote of the string doubled.  So the value
    He said, double quote, hi, double quote is written as a double quote,
    He said, two double quotes, hi, and three double quotes. *)
Theorem exportToCsv_quoted_rows :
  forall (rowsA : list Tracker.Intern) (rowsB : list Crud.Intern)
         (today : string),
    blob_content (Tracker.exportToCsv rowsA today)
    = csv_row tracker_columns
      ++ String.concat ""
           (List.map (fun r => LF ++ csv_row (tracker_display r)) rowsA) /\
    blob_content (Crud.exportToCsv rowsB today)
    = csv_row crud_columns
      ++ String.concat ""
           (List.map (fun r => LF ++ csv_row (crud_display r)) rowsB) /\
    (forall value : string,
       quote_cell (CStr value) = DQ ++ double_quotes value ++ DQ /\
       single_quotes (double_quotes value) = value) /\
    (forall values : list string,
       csv_row values
       = String.concat "," (List.map (fun v => DQ ++ double_quotes v ++ DQ) values)) /\
    quote_cell (CStr ("He said " ++ DQ ++ "hi" ++ DQ))
    = DQ ++ "He said " ++ DQ ++ DQ ++ "hi" ++ DQ ++ DQ ++ DQ.
Proof.
  intros rowsA rowsB today.
  split; [cbn [Tracker.exportToCsv blob_content];
          rewrite tracker_csv_document; unfold csv_document;
          cbn [List.map]; rewrite join_LF_cons, !map_map; reflexivity |].
  split; [cbn [Crud.exportToCsv blob_content];
          rewrite crud_csv_document; unfold csv_document;
          cbn [List.map]; rewrite join_LF_cons, !map_map; reflexivity |].
  split; [intros value; split;
          [apply (quote_cell_quoted (CStr value))
          | apply single_quotes_double_quotes] |].
  split; [reflexivity | vm_compute; reflexivity].
Qed.

(** A record of each page, and the file made of it. *)
Example crud_csv_example :
  Crud.csv
    [ Crud.mkIntern "9" ("He said " ++ DQ ++ "hi" ++ DQ) "a@b.c" "HR" "M, N"
        "2024-05-01" Crud.Offer 7 ]
  = DQ ++ "Name" ++ DQ ++ "," ++ DQ ++ "Email" ++ DQ ++ ","
    ++ DQ ++ "Department" ++ DQ ++ "," ++ DQ ++ "Mentor" ++ DQ ++ ","
    ++ DQ ++ "Start Date" ++ DQ ++ "," ++ DQ ++ "Status" ++ DQ ++ ","
    ++ DQ ++ "Score" ++ DQ ++ LF
    ++ DQ ++ "He said " ++ DQ ++ DQ ++ "hi" ++ DQ ++ DQ ++ DQ ++ ","
    ++ DQ ++ "a@b.c" ++ DQ ++ "," ++ DQ ++ "HR" ++ DQ ++ ","
    ++ DQ ++ "M, N" ++ DQ ++ "," ++ DQ ++ "2024-05-01" ++ DQ ++ ","
    ++ DQ ++ "Offer" ++ DQ ++ "," ++ DQ ++ "7" ++ DQ.
Proof. vm_compute. reflexivity. Qed.

Example tracker_csv_example :
  tracker_display
    (Tracker.mkIntern "7-0" "Ann" "" Tracker.Leave Tracker.No true false 1000
       100 Tracker.Weak None Tracker.Black Tracker.Yes)
  = [ "Ann"; ""; "Leave"; "No"; "Yes"; "No"; "1000"; "Weak"; ""; "Black";
      "Yes" ] /\
  Tracker.csv [] = csv_row tracker_columns.
Proof. split; vm_compute; reflexivity. Qed.

End Csv.

(* ================================================================== *)
(** * Rounding to doubles *)
(* ================================================================== *)



Section Doubles.
Import JS.

Lemma pow2_pos (k : Z) : (0 < pow2 k)%Q.
Proof. apply Qpower_0_lt. reflexivity. Qed.

Lemma pow2_add (a b : Z) : (pow2 (a + b) == pow2 a * pow2 b)%Q.
Proof. apply Qpower_plus. discriminate. Qed.

Lemma pow2_Z (k : Z) : 0 <= k -> (pow2 k == inject_Z (2 ^ k))%Q.
Proof. intros H. unfold pow2. now rewrite Zpower_Qpower. Qed.

Lemma pow2_le (a b : Z) : a <= b -> (pow2 a <= pow2 b)%Q.
Proof. intros H. apply Qpower_le_compat_l; [exact H | discriminate]. Qed.

Lemma pow2_lt_inv (a b : Z) : (pow2 a < pow2 b)%Q -> a < b.
Proof. intros H. apply (Qpower_lt_compat_l_inv 2); [exact H | reflexivity]. Qed.

Lemma pow2_sub (a b : Z) : (pow2 (a - b) == pow2 a / pow2 b)%Q.
Proof. apply Qpower_minus. discriminate. Qed.

Lemma pow2_cancel (k : Z) : (pow2 (- k) * pow2 k == 1)%Q.
Proof.
  rewrite <- pow2_add. replace (- k + k) with 0 by lia. reflexivity.
Qed.

(** [floor_log2] is the binary exponent of a positive rational. *)
Lemma floor_log2_spec (a : Q) :
  (0 < a)%Q ->
  (pow2 (floor_log2 a) <= a)%Q /\ (a < pow2 (floor_log2 a + 1))%Q.
Proof.
  intros Ha. unfold floor_log2.
  destruct a as [n d].
  assert (Hn : 0 < n) by (unfold Qlt in Ha; simpl in Ha; lia).
  cbn [Qnum Qden].
  set (ln := Z.log2 n). set (ld := Z.log2 (Z.pos d)).
  pose proof (Z.log2_spec n Hn) as [Hn1 Hn2]. fold ln in Hn1, Hn2.
  pose proof (Z.log2_spec (Z.pos d) ltac:(lia)) as [Hd1 Hd2]. fold ld in Hd1, Hd2.
  assert (Lln : 0 <= ln) by apply Z.log2_nonneg.
  assert (Lld : 0 <= ld) by apply Z.log2_nonneg.
  assert (Pn : 0 < 2 ^ ln) by (apply Z.pow_pos_nonneg; lia).
  assert (Pd : 0 < 2 ^ ld) by (apply Z.pow_pos_nonneg; lia).
  rewrite Z.pow_succ_r in Hn2, Hd2 by assumption.
  assert (Frac : forall i j : Z, 0 <= i -> 0 <= j ->
            (pow2 (i - j) == inject_Z (2 ^ i) / inject_Z (2 ^ j))%Q).
  { intros i j Hi Hj. rewrite pow2_sub, !pow2_Z by assumption. reflexivity. }
  assert (Cmp_le : forall A B : Z, 0 < B ->
            A * Z.pos d <= n * B -> (inject_Z A / inject_Z B <= n # d)%Q).
  { intros A B HB H. rewrite (Qmake_Qdiv n d).
    apply Qle_shift_div_r; [rewrite <- (Zlt_Qlt 0); exact HB |].
    unfold Qdiv. rewrite <- Qmult_assoc, (Qmult_comm (/ _)), Qmult_assoc.
    apply Qle_shift_div_l; [rewrite <- (Zlt_Qlt 0); lia |].
    rewrite <- !inject_Z_mult, <- Zle_Qle. lia. }
  assert (Cmp_lt : forall A B : Z, 0 < B ->
            n * B < A * Z.pos d -> (n # d < inject_Z A / inject_Z B)%Q).
  { intros A B HB H. rewrite (Qmake_Qdiv n d).
    apply Qlt_shift_div_l; [rewrite <- (Zlt_Qlt 0); exact HB |].
    unfold Qdiv. rewrite <- Qmult_assoc, (Qmult_comm (/ _)), Qmult_assoc.
    apply Qlt_shift_div_r; [rewrite <- (Zlt_Qlt 0); lia |].
    rewrite <- !inject_Z_mult, <- Zlt_Qlt. lia. }
  destruct (Qle_bool (pow2 (ln - ld)) (n # d)) eqn:T.
  - apply Qle_bool_iff in T. split; [exact T |].
    replace (ln - ld + 1) with ((ln + 1) - ld) by lia.
    rewrite Frac by lia. apply Cmp_lt; [exact Pd |].
    rewrite Z.pow_add_r by lia. change (2 ^ 1) with 2. nia.
  - assert (T' : (n # d < pow2 (ln - ld))%Q).
    { apply Qnot_le_lt. intros H. apply Qle_bool_iff in H. congruence. }
    replace (ln - ld - 1 + 1) with (ln - ld) by lia.
    split; [| exact T'].
    replace (ln - ld - 1) with (ln - (ld + 1)) by lia.
    rewrite Frac by lia. apply Cmp_le; [apply Z.pow_pos_nonneg; lia |].
    rewrite Z.pow_add_r by lia. change (2 ^ 1) with 2. nia.
Qed.

(** [round_half_even] against integers: it is the floor or the next
    integer, it does not cross an integer, and it goes down from below a
    half. *)
Lemma round_half_even_cases (m : Q) :
  round_half_even m = Qfloor m \/ round_half_even m = Qfloor m + 1.
Proof.
  unfold round_half_even.
  destruct (m - inject_Z (Qfloor m) ?= 1 # 2)%Q; auto.
  destruct (Z.even (Qfloor m)); auto.
Qed.

Lemma round_half_even_comp (m m' : Q) :
  (m == m')%Q -> round_half_even m = round_half_even m'.
Proof.
  intros E. unfold round_half_even.
  rewrite (Qfloor_comp _ _ E).
  assert (C : ((m - inject_Z (Qfloor m') ?= 1 # 2)
               = (m' - inject_Z (Qfloor m') ?= 1 # 2))%Q)
    by (apply Qcompare_comp; [now rewrite E | reflexivity]).
  now rewrite C.
Qed.

Lemma round_half_even_ge (m : Q) (w : Z) :
  (inject_Z w <= m)%Q -> w <= round_half_even m.
Proof.
  intros H.
  assert (F : w <= Qfloor m).
  { rewrite <- (Qfloor_Z w). now apply Qfloor_resp_le. }
  destruct (round_half_even_cases m) as [-> | ->]; lia.
Qed.

Lemma round_half_even_lt_half (m : Q) (w : Z) :
  (m < inject_Z w + (1 # 2))%Q -> round_half_even m <= w.
Proof.
  intros H. unfold round_half_even.
  pose proof (Qfloor_le m) as Hf.
  assert (F : Qfloor m <= w).
  { assert (A : (inject_Z (Qfloor m) < inject_Z (w + 1))%Q).
    { rewrite inject_Z_plus. change (inject_Z 1) with 1%Q. lra. }
    rewrite <- Zlt_Qlt in A. lia. }
  destruct (m - inject_Z (Qfloor m) ?= 1 # 2)%Q eqn:C.
  - apply Qeq_alt in C.
    assert (A : (inject_Z (Qfloor m) < inject_Z w)%Q) by lra.
    rewrite <- Zlt_Qlt in A. destruct (Z.even (Qfloor m)); lia.
  - exact F.
  - apply Qgt_alt in C.
    assert (A : (inject_Z (Qfloor m) < inject_Z w)%Q) by lra.
    rewrite <- Zlt_Qlt in A. lia.
Qed.

Lemma round_half_even_le (m : Q) (w : Z) :
  (m <= inject_Z w)%Q -> round_half_even m <= w.
Proof. intros H. apply round_half_even_lt_half. lra. Qed.




(** [round64] takes equal rationals to the same double. *)
Lemma round64_comp (x y : Q) : (x == y)%Q -> round64 x = round64 y.
Proof. intros E. unfold round64. now rewrite (Qred_complete _ _ E). Qed.

Lemma pow2_lt (a b : Z) : a < b -> (pow2 a < pow2 b)%Q.
Proof. intros H. apply Qpower_lt_compat_l; [exact H | reflexivity]. Qed.

Lemma pow2_inv (k : Z) : (/ pow2 k == pow2 (- k))%Q.
Proof. unfold pow2. now rewrite Qpower_opp. Qed.

Lemma floor_log2_unique (a : Q) (e : Z) :
  (pow2 e <= a)%Q -> (a < pow2 (e + 1))%Q -> floor_log2 a = e.
Proof.
  intros H1 H2.
  assert (Ha : (0 < a)%Q) by (pose proof (pow2_pos e); lra).
  destruct (floor_log2_spec a Ha) as [F1 F2].
  assert (A : floor_log2 a < e + 1) by (apply pow2_lt_inv; lra).
  assert (B : e < floor_log2 a + 1) by (apply pow2_lt_inv; lra).
  lia.
Qed.

(** Below 2^1023 the rounding is finite: with [e] the binary exponent of
    [x], the result is the multiple of [2^(E-52)] nearest to [x], where
    [E] is [e], or -1022 for a subnormal [x]. *)
Lemma round64_finite (x : Q) (e : Z) :
  e <= 1022 ->
  (pow2 e <= Qabs x)%Q -> (Qabs x < pow2 (e + 1))%Q ->
  round64 x
  = Finite (Qred (inject_Z (round_half_even (x * pow2 (52 - Z.max e (-1022))))
                  * pow2 (Z.max e (-1022) - 52))).
Proof.
  intros He H1 H2. unfold round64. cbv zeta.
  pose proof (Qred_correct x) as Ex.
  set (x' := Qred x) in *.
  assert (Ea : (Qabs x' == Qabs x)%Q) by now rewrite Ex.
  assert (N : Qeq_bool x' 0 = false).
  { destruct (Qeq_bool x' 0) eqn:T; [| reflexivity].
    apply Qeq_bool_iff in T. rewrite T in Ea. change (Qabs 0) with 0%Q in Ea.
    pose proof (pow2_pos e). lra. }
  rewrite N.
  rewrite (floor_log2_unique (Qabs x') e)
    by (rewrite Ea; assumption).
  set (E := Z.max e (-1022)).
  assert (HE : e <= E <= 1022) by (unfold E; lia).
  assert (Em : (x' / pow2 (E - 52) == x * pow2 (52 - E))%Q).
  { rewrite Ex. unfold Qdiv. rewrite pow2_inv.
    replace (- (E - 52)) with (52 - E) by lia. reflexivity. }
  rewrite (round_half_even_comp _ _ Em).
  set (r := round_half_even (x * pow2 (52 - E))).
  assert (G53 : (pow2 (E + 1) * pow2 (52 - E) == inject_Z (2 ^ 53))%Q).
  { rewrite <- pow2_add. replace (E + 1 + (52 - E)) with 53 by lia.
    apply pow2_Z. lia. }
  assert (H2' : (Qabs x < pow2 (E + 1))%Q).
  { pose proof (pow2_le (e + 1) (E + 1) ltac:(lia)). lra. }
  assert (Hr : - 2 ^ 53 <= r <= 2 ^ 53).
  { apply Qabs_Qlt_condition in H2'. destruct H2' as [L U].
    pose proof (pow2_pos (52 - E)) as Pg.
    assert (M1 : (x * pow2 (52 - E) < pow2 (E + 1) * pow2 (52 - E))%Q)
      by (apply Qmult_lt_compat_r; assumption).
    assert (M2 : (- pow2 (E + 1) * pow2 (52 - E) < x * pow2 (52 - E))%Q)
      by (apply Qmult_lt_compat_r; assumption).
    split.
    - apply round_half_even_ge. rewrite inject_Z_opp, <- G53. lra.
    - apply round_half_even_le. rewrite <- G53. lra. }
  assert (O : Qle_bool (pow2 1024) (Qabs (inject_Z r * pow2 (E - 52))) = false).
  { destruct (Qle_bool (pow2 1024) (Qabs (inject_Z r * pow2 (E - 52)))) eqn:T;
      [| reflexivity].
    exfalso. apply Qle_bool_iff in T.
    rewrite Qabs_Qmult in T.
    pose proof (pow2_pos (E - 52)) as Ph.
    rewrite (Qabs_pos (pow2 (E - 52))) in T by lra.
    assert (A : (Qabs (inject_Z r) <= inject_Z (2 ^ 53))%Q).
    { apply Qabs_Qle_condition. rewrite <- inject_Z_opp, <- !Zle_Qle. lia. }
    assert (B : (Qabs (inject_Z r) * pow2 (E - 52)
                 <= inject_Z (2 ^ 53) * pow2 (E - 52))%Q)
      by (apply Qmult_le_compat_r; lra).
    assert (C : (inject_Z (2 ^ 53) * pow2 (E - 52) == pow2 (E + 1))%Q).
    { rewrite <- (pow2_Z 53) by lia. rewrite <- pow2_add.
      replace (53 + (E - 52)) with (E + 1) by lia. reflexivity. }
    pose proof (pow2_le (E + 1) 1023 ltac:(lia)).
    pose proof (pow2_lt 1023 1024 ltac:(lia)).
    lra. }
  rewrite O. reflexivity.
Qed.








(** Rounding keeps a number between two integers of less than 54 bits. *)
Lemma round64_between (x : Q) (lo hi : Z) :
  - 2 ^ 53 < lo -> hi < 2 ^ 53 ->
  (inject_Z lo <= x)%Q -> (x <= inject_Z hi)%Q ->
  exists y : Q,
    round64 x = Finite y /\ (inject_Z lo <= y)%Q /\ (y <= inject_Z hi)%Q.
Proof.
  intros Hlo Hhi L U.
  destruct (Qeq_dec x 0) as [Z0 | NZ].
  { exists 0%Q. split; [rewrite (round64_comp _ _ Z0); reflexivity |].
    rewrite Z0 in L, U. split; assumption. }
  assert (Pa : (0 < Qabs x)%Q).
  { destruct (Qlt_le_dec 0 (Qabs x)) as [P | N]; [exact P |].
    exfalso. apply NZ. pose proof (Qabs_nonneg x) as A.
    assert (Z1 : (Qabs x <= 0)%Q) by lra.
    apply Qabs_Qle_condition in Z1. lra. }
  destruct (floor_log2_spec (Qabs x) Pa) as [Le Ue].
  set (e := floor_log2 (Qabs x)) in *.
  assert (B53 : (Qabs x < pow2 53)%Q).
  { rewrite pow2_Z by lia. apply Qabs_Qlt_condition.
    assert (A : (inject_Z (- 2 ^ 53) < inject_Z lo)%Q) by (rewrite <- Zlt_Qlt; lia).
    assert (B : (inject_Z hi < inject_Z (2 ^ 53))%Q) by (rewrite <- Zlt_Qlt; lia).
    rewrite inject_Z_opp in A. lra. }
  assert (E52 : e <= 52).
  { assert (e < 53); [| lia]. apply pow2_lt_inv. lra. }
  set (E := Z.max e (-1022)).
  assert (HE : E <= 52) by (unfold E; lia).
  set (G := 2 ^ (52 - E)).
  assert (EG : (pow2 (52 - E) == inject_Z G)%Q) by (apply pow2_Z; lia).
  assert (PG : (0 < inject_Z G)%Q) by (rewrite <- EG; apply pow2_pos).
  assert (EH : (pow2 (E - 52) == / inject_Z G)%Q).
  { rewrite <- EG, pow2_inv. replace (- (52 - E)) with (E - 52) by lia.
    reflexivity. }
  set (r := round_half_even (x * pow2 (52 - E))).
  assert (Rlo : lo * G <= r).
  { apply round_half_even_ge. rewrite EG, inject_Z_mult.
    apply Qmult_le_compat_r; lra. }
  assert (Rhi : r <= hi * G).
  { apply round_half_even_le. rewrite EG, inject_Z_mult.
    apply Qmult_le_compat_r; lra. }
  exists (Qred (inject_Z r * pow2 (E - 52))). split.
  - apply round64_finite; [lia | exact Le | exact Ue].
  - rewrite Qred_correct, EH.
    rewrite Zle_Qle, inject_Z_mult in Rlo, Rhi.
    split.
    + apply Qle_shift_div_l; assumption.
    + apply Qle_shift_div_r; assumption.
Qed.



Lemma positive_not_zero (n : Z) : 0 < n -> Qeq_bool (inject_Z n) 0 = false.
Proof.
  intros Hn. destruct (Qeq_bool (inject_Z n) 0) eqn:T; [| reflexivity].
  apply Qeq_bool_iff in T. unfold Qeq in T.
  cbn [Qnum Qden inject_Z] in T. lia.
Qed.


(** The model at work: [String] of some doubles, and the sum of 0.1 and
    0.2, which is not 0.3. *)
Example String_double_values :
  List.map (fun q => String_double (double_of q))
    [92; 85.5; 0.1; -2.5; 0; 1e21; 123456789012345680000; 1.5e-7; 0.000001;
     5e-324; 1.7976931348623157e308]%Q
  = ["92"; "85.5"; "0.1"; "-2.5"; "0"; "1e+21"; "123456789012345680000";
     "1.5e-7"; "0.000001"; "5e-324"; "1.7976931348623157e+308"]%string /\
  fl_add (Finite (double_of 0.1)) (Finite (double_of 0.2))
  = Finite (double_of 0.30000000000000004) /\
  String_double (double_of 0.30000000000000004) = "0.30000000000000004"%string /\
  round64 (2 ^ 1024) = Infinity /\
  fl_add (Finite (double_of 1e308)) (Finite (double_of 1e308)) = Infinity.
Proof.
  split; [vm_compute; reflexivity |].
  split; [vm_compute; reflexivity |].
  split; [vm_compute; reflexivity |].
  split; vm_compute; reflexivity.
Qed.

End Doubles.

(* ================================================================== *)
(** * Variant B: the average score *)
(* ================================================================== *)

Section AverageScore.
Import JS Crud.

(** [Math.round] returns the integer within a half of its argument, the
    upper one on a tie. *)
Lemma Math_round_nearest (x : Q) :
  (inject_Z (Math_round x) - (1 # 2) <= x)%Q /\
  (x < inject_Z (Math_round x) + (1 # 2))%Q.
Proof.
  unfold Math_round.
  pose proof (Qfloor_le (x + (1 # 2))) as Hlo.
  pose proof (Qlt_floor (x + (1 # 2))) as Hhi.
  rewrite inject_Z_plus in Hhi.
  change (inject_Z 1) with 1%Q in Hhi.
  split; lra.
Qed.









(** Whole scores past the bound round as well: 2^53 and 1 add up to 2^53
    in doubles, and the page shows 2^52 where the mean rounds to
    2^52 + 1. *)
Example avgScore_of_large_scores :
  avgScore (stats large_scores) = Finite (inject_Z (2 ^ 52)) /\
  Math_round (mean_score large_scores) = 2 ^ 52 + 1.
Proof. split; vm_compute; reflexivity. Qed.

(** The four seed records average 84; 81 and 92 average 86.5, which goes
    up to 87; a store of negative scores rounds the same way; one score of
    85.5 shows as 86. *)
Example avgScore_values :
  avgScore (stats (seedInterns "d" "d" "d" "d")) = Finite 84 /\
  avgScore (stats (firstn 2 (seedInterns "d" "d" "d" "d"))) = Finite 87 /\
  avgScore
    (stats [mkIntern "1" "a" "b" "HR" "" "d" Active (-2);
            mkIntern "2" "a" "b" "HR" "" "d" Active (-1)]) = Finite (-1) /\
  avgScore (stats [scored (double_of (855 # 10))]) = Finite 86 /\
  active (stats (seedInterns "d" "d" "d" "d")) = 2 /\
  offers (stats (seedInterns "d" "d" "d" "d")) = 1 /\
  completed (stats (seedInterns "d" "d" "d" "d")) = 1.
Proof.
  split; [vm_compute; reflexivity |].
  split; [vm_compute; reflexivity |].
  split; [vm_compute; reflexivity |].
  split; [vm_compute; reflexivity |].
  repeat split.
Qed.

End AverageScore.

(* ================================================================== *)
(** * Variant B: addIntern *)
(* ================================================================== *)

Section AddIntern.
Import JS Crud.

Local Open Scope string_scope.

(** C10. When the name or the email of the form is the empty string,
    [addIntern] leaves the state, and so the store, as it is.  Otherwise
    the store gets one more record, at its front: the one with the
    generated id and the values of the form; the records it held follow,
    unchanged and in their order. *)
Theorem addIntern_guarded_prepend :
  forall (id0 today : string) (st : State),
    (f_name (form st) = "" \/ f_email (form st) = "" ->
     addIntern id0 today st = st) /\
    (f_name (form st) <> "" /\ f_email (form st) <> "" ->
     interns (addIntern id0 today st)
     = mkIntern id0 (f_name (form st)) (f_email (form st))
         (f_department (form st)) (f_mentor (form st))
         (f_startDate (form st)) (f_status (form st)) (f_score (form st))
       :: interns st /\
     List.length (interns (addIntern id0 today st))
     = S (List.length (interns st)) /\
     (forall k, nth_error (interns (addIntern id0 today st)) (S k)
                = nth_error (interns st) k)).
Proof.
  intros id0 today st. unfold addIntern.
  destruct (truthy (f_name (form st))) eqn:Hn;
    destruct (truthy (f_email (form st))) eqn:He; cbn [negb orb];
    try apply truthy_false_iff in Hn; try apply truthy_false_iff in He.
  - split.
    + intros [H | H]; rewrite H in *; discriminate.
    + intros _. cbn. repeat split.
  - split; [reflexivity | intros [_ H]; contradiction].
  - split; [reflexivity | intros [H _]; contradiction].
  - split; [reflexivity | intros [H _]; contradiction].
Qed.

(** The form, once filled in, and the state after Save; the blank form
    changes nothing. *)
Example addIntern_examples :
  let st := initialState "2024-05-01" "2024-04-01" "2024-02-01" "2024-04-24" in
  let filled :=
    mkState (interns st) true
      (mkForm "Zoe" "zoe@x.org" "HR" "" "2024-05-02" Offer 70) in
  addIntern "k3j9x2a" "2024-05-01" st = st /\
  List.map id (interns (addIntern "k3j9x2a" "2024-05-01" filled))
  = ["k3j9x2a"; "1"; "2"; "3"; "4"] /\
  open (addIntern "k3j9x2a" "2024-05-01" filled) = false /\
  form (addIntern "k3j9x2a" "2024-05-01" filled) = blankForm "2024-05-01".
Proof. repeat split. Qed.

End AddIntern.

(* ================================================================== *)
(** * Variant A: how the inline edits behave on the store *)
(* ================================================================== *)

Section StoreEdits.
Import JS Env Tracker.

(** Every inline edit is a map of its record rewriting. *)
Lemma mutate_map (m : Mutation) (s : list Intern) :
  mutate m s = List.map (edit_record m) s.
Proof.
  destruct m; cbn [mutate];
    unfold setName, setEmail, setStatusActivity, setExcelSubmitted,
      toggleAiChat, toggleDataMining, updateSpeakers, setPerformance,
      setSegregation, setSheetStatus, setDataRepurposed;
    apply map_ext; intros p; unfold edit_record; cbn [target_id rewrite_record];
    destruct (String.eqb (id p) id0); cbn [negb]; try reflexivity.
  rewrite updateSpeakers_guard, Z.geb_leb. reflexivity.
Qed.

Lemma rewrite_record_id (m : Mutation) (p : Intern) :
  id (rewrite_record m p) = id p /\
  speakersTarget (rewrite_record m p) = speakersTarget p.
Proof.
  destruct m; cbn [rewrite_record]; try (split; reflexivity).
  - destruct (_ && _); split; reflexivity.
  - destruct (is_exit v); split; reflexivity.
Qed.

Lemma edit_record_id (m : Mutation) (p : Intern) :
  id (edit_record m p) = id p /\
  speakersTarget (edit_record m p) = speakersTarget p.
Proof.
  unfold edit_record. destruct (String.eqb (id p) (target_id m)).
  - apply rewrite_record_id.
  - split; reflexivity.
Qed.

(** X1. No inline edit changes the number of records, their order, their
    ids or their targets: the list of ids and the list of targets of the
    store are the same before and after. *)
Theorem edits_keep_ids_and_targets :
  forall (m : Mutation) (s : list Intern),
    List.map id (mutate m s) = List.map id s /\
    List.map speakersTarget (mutate m s) = List.map speakersTarget s /\
    List.length (mutate m s) = List.length s.
Proof.
  intros m s. rewrite mutate_map, !map_map, length_map.
  repeat split; apply map_ext; intros p; apply edit_record_id.
Qed.

(** X2. An inline edit aimed at an id that no record of the store has
    leaves the store as it is. *)
Theorem edit_of_absent_id_is_noop :
  forall (m : Mutation) (s : list Intern),
    ~ In (target_id m) (List.map id s) -> mutate m s = s.
Proof.
  intros m s Habs. rewrite mutate_map.
  rewrite <- (map_id s) at 2. apply map_ext_in. intros p Hp.
  unfold edit_record.
  destruct (String.eqb_spec (id p) (target_id m)) as [E | _]; [| reflexivity].
  exfalso. apply Habs. rewrite <- E. apply in_map. exact Hp.
Qed.

Lemma edit_of_absent_id_is_noop_witness :
  mutate (SetSegregation "zz" (Some Terminated)) five = five.
Proof.
  apply (edit_of_absent_id_is_noop (SetSegregation "zz" (Some Terminated)) five).
  vm_compute. intuition discriminate.
Defined.

(** X3. Toggling a flag twice gives the store back, for both flags. *)
Theorem toggles_are_involutions :
  forall (i : string) (s : list Intern),
    toggleAiChat i (toggleAiChat i s) = s /\
    toggleDataMining i (toggleDataMining i s) = s.
Proof.
  intros i s. unfold toggleAiChat, toggleDataMining.
  rewrite !map_map. split.
  - rewrite <- (map_id s) at 2. apply map_ext. intros p.
    destruct (String.eqb (id p) i) eqn:E; cbn [id with_aiChatAdded];
      rewrite E; [| reflexivity].
    destruct p; cbn. now rewrite negb_involutive.
  - rewrite <- (map_id s) at 2. apply map_ext. intros p.
    destruct (String.eqb (id p) i) eqn:E; cbn [id with_dataMiningGC];
      rewrite E; [| reflexivity].
    destruct p; cbn. now rewrite negb_involutive.
Qed.

Lemma rewrite_record_twice (m : Mutation) (p : Intern) :
  is_toggle m = false ->
  rewrite_record m (rewrite_record m p) = rewrite_record m p.
Proof.
  intros Ht. destruct m; try discriminate Ht; cbn [rewrite_record];
    try reflexivity.
  - (* updateSpeakers *)
    destruct ((speakersTarget p <=? Z.max 0 (Z.min 1000 (Qfloor count)))
              && negb (is_exit (segregation p))) eqn:E; cbn; rewrite E;
      reflexivity.
  - (* setSegregation *)
    destruct (is_exit v); reflexivity.
Qed.

(** X4. An inline edit that writes a value (every edit but the two
    toggles) does nothing more when it is repeated: [updateSpeakers],
    [setSegregation] and the plain setters are idempotent. *)
Theorem value_edits_are_idempotent :
  forall (m : Mutation) (s : list Intern),
    is_toggle m = false -> mutate m (mutate m s) = mutate m s.
Proof.
  intros m s Ht. rewrite !mutate_map, map_map. apply map_ext. intros p.
  unfold edit_record at 2.
  destruct (String.eqb (id p) (target_id m)) eqn:E.
  - unfold edit_record.
    rewrite (proj1 (rewrite_record_id m p)), E.
    apply rewrite_record_twice. exact Ht.
  - unfold edit_record. rewrite E. reflexivity.
Qed.

Lemma value_edits_are_idempotent_witness :
  mutate (UpdateSpeakers "c" (250 # 2))
    (mutate (UpdateSpeakers "c" (250 # 2)) five)
  = mutate (UpdateSpeakers "c" (250 # 2)) five.
Proof.
  apply (value_edits_are_idempotent (UpdateSpeakers "c" (250 # 2)) five).
  reflexivity.
Defined.

(** X5. Two inline edits aimed at different ids can be done in either
    order: the store they leave is the same. *)
Theorem edits_of_different_ids_commute :
  forall (m1 m2 : Mutation) (s : list Intern),
    target_id m1 <> target_id m2 ->
    mutate m1 (mutate m2 s) = mutate m2 (mutate m1 s).
Proof.
  intros m1 m2 s Hne. rewrite !mutate_map, !map_map. apply map_ext.
  intros p. unfold edit_record at 2 4.
  destruct (String.eqb_spec (id p) (target_id m1)) as [E1 | N1];
    destruct (String.eqb_spec (id p) (target_id m2)) as [E2 | N2].
  - congruence.
  - unfold edit_record.
    rewrite (proj1 (rewrite_record_id m1 p)).
    destruct (String.eqb_spec (id p) (target_id m2)); [contradiction |].
    destruct (String.eqb_spec (id p) (target_id m1)); [| contradiction].
    reflexivity.
  - unfold edit_record.
    rewrite (proj1 (rewrite_record_id m2 p)).
    destruct (String.eqb_spec (id p) (target_id m1)); [contradiction |].
    destruct (String.eqb_spec (id p) (target_id m2)); [| contradiction].
    reflexivity.
  - unfold edit_record.
    destruct (String.eqb_spec (id p) (target_id m1)); [contradiction |].
    destruct (String.eqb_spec (id p) (target_id m2)); [contradiction |].
    reflexivity.
Qed.

Lemma edits_of_different_ids_commute_witness :
  mutate (SetSheetStatus "a" Green) (mutate (SetSegregation "b" (Some Relocated)) five)
  = mutate (SetSegregation "b" (Some Relocated)) (mutate (SetSheetStatus "a" Green) five).
Proof.
  apply (edits_of_different_ids_commute (SetSheetStatus "a" Green)
           (SetSegregation "b" (Some Relocated)) five).
  cbn. discriminate.
Defined.

(** On one record the order can matter: a count that reaches the target
    turns the sheet Green before an exit segregation is set, not after. *)
Example edits_of_one_id_need_not_commute :
  List.map sheetStatus
    (setSheetStatus "a" Red (updateSpeakers "a" (100 # 1) five))
  <> List.map sheetStatus
       (updateSpeakers "a" (100 # 1) (setSheetStatus "a" Red five)).
Proof. vm_compute. discriminate. Qed.

End StoreEdits.

(* ================================================================== *)
(** * Variant A: the seed generator and the store of the page *)
(* ================================================================== *)

Section SeedGenerator.
Import JS Env Tracker.

(** Unfolds the monad of [seed_intern] and splits on every test, the
    count and the tests on the random numbers turned into variables. *)
Ltac seed_cases :=
  unfold seed_intern, bind, Math_random, Date_now, ret;
  cbn [randoms clock];
  match goal with
  | |- context [Math_floor ?x] =>
      let c := fresh "c" in
      let Hc := fresh "Hc" in
      generalize (Math_floor x); intros c;
      destruct (Z.gtb_spec c 60) as [Hc | Hc]
  end;
  repeat (cbn [fst snd randoms clock andb orb is_exit];
          match goal with
          | |- context [gt ?x ?y] =>
              let b := fresh "b" in
              generalize (gt x y); intros b; destruct b
          end);
  cbn [fst snd randoms clock andb orb is_exit].

Lemma seed_intern_rules (i : Z) (w : World) :
  seed_rules (fst (seed_intern i w)).
Proof.
  unfold seed_rules. seed_cases;
    cbn; repeat split; intros; try congruence; try discriminate; try lia;
    match goal with H : _ \/ _ |- _ => destruct H; discriminate end.
Qed.

Lemma seed_intern_id (i : Z) (w : World) :
  id (fst (seed_intern i w))
  = (String_number (clock w 0) ++ "-" ++ String_number i)%string.
Proof. seed_cases; reflexivity. Qed.

Lemma seed_intern_count (i : Z) (w : World) :
  speakersCount (fst (seed_intern i w)) = Math_floor (randoms w 4 * 120).
Proof. seed_cases; reflexivity. Qed.

Lemma seed_intern_clock (i : Z) (w : World) :
  clock (snd (seed_intern i w)) = fun n => clock w (S n).
Proof. seed_cases; reflexivity. Qed.

Lemma seed_intern_unit_world (i : Z) (w : World) :
  unit_world w -> unit_world (snd (seed_intern i w)).
Proof.
  intros Hw. revert Hw.
  seed_cases; intros Hw n; cbn [randoms]; apply Hw.
Qed.

(** A number of [0, 1) times 120, rounded down, is one of 0, ..., 119. *)
Lemma floor_of_unit_times_120 (r : Q) :
  (0 <= r)%Q -> (r < 1)%Q -> 0 <= Math_floor (r * 120) <= 119.
Proof.
  intros H0 H1. unfold Math_floor.
  pose proof (Qfloor_le (r * 120)) as Hlo.
  pose proof (Qlt_floor (r * 120)) as Hhi.
  assert (A : (inject_Z (-1) < inject_Z (Qfloor (r * 120)))%Q).
  { rewrite inject_Z_plus in Hhi. change (inject_Z (-1)) with (-1)%Q.
    change (inject_Z 1) with 1%Q in Hhi. lra. }
  assert (B : (inject_Z (Qfloor (r * 120)) < inject_Z 120)%Q).
  { change (inject_Z 120) with 120%Q. lra. }
  rewrite <- Zlt_Qlt in A, B. lia.
Qed.

Lemma seed_loop_S (n : nat) (i : Z) (out : list Intern) (w : World) :
  seed_loop (S n) i out w
  = seed_loop n (i + 1) (out ++ [fst (seed_intern i w)])
      (snd (seed_intern i w)).
Proof.
  cbn [seed_loop]. unfold bind. destruct (seed_intern i w); reflexivity.
Qed.

(** What holds of every record the body of the loop makes, in a world
    that keeps a property the body preserves, holds of the array. *)
Lemma seed_loop_Forall (W : World -> Prop) (P : Intern -> Prop) :
  (forall i w, W w -> P (fst (seed_intern i w))) ->
  (forall i w, W w -> W (snd (seed_intern i w))) ->
  forall (n : nat) (i : Z) (out : list Intern) (w : World),
    W w -> Forall P out ->
    Forall P (fst (seed_loop n i out w)) /\ W (snd (seed_loop n i out w)).
Proof.
  intros HP HW n. induction n as [| n IH]; intros i out w Hw Hout.
  - split; assumption.
  - rewrite seed_loop_S.
    apply IH; [apply HW; exact Hw |].
    apply Forall_app.
    split; [exact Hout | constructor; [apply HP; exact Hw | constructor]].
Qed.

Lemma seed_loop_ids (n : nat) :
  forall (i : Z) (out : list Intern) (w : World),
    List.map id (fst (seed_loop n i out w))
    = List.map id out
      ++ List.map
           (fun k => (String_number (clock w k) ++ "-"
                      ++ String_number (i + Z.of_nat k))%string)
           (seq 0 n).
Proof.
  induction n as [| n IH]; intros i out w.
  - cbn. now rewrite app_nil_r.
  - rewrite seed_loop_S, IH, map_app, <- app_assoc. f_equal.
    cbn [List.map app]. rewrite seed_intern_id, seed_intern_clock.
    rewrite <- cons_seq, <- seq_shift, map_cons, map_map.
    f_equal; [now rewrite Z.add_0_r |].
    apply map_ext. intros k. do 3 f_equal. lia.
Qed.

Lemma seed_loop_length (n : nat) (i : Z) (out : list Intern) (w : World) :
  List.length (fst (seed_loop n i out w)) = (List.length out + n)%nat.
Proof.
  rewrite <- (length_map id), seed_loop_ids, length_app, !length_map,
    length_seq.
  reflexivity.
Qed.

(** The decimal digits of a number that is not negative hold no dash. *)
Lemma string_of_uint_dashless (d : Decimal.uint) :
  includes (NilEmpty.string_of_uint d) "-" = false.
Proof. induction d; cbn; assumption || reflexivity. Qed.

Lemma String_number_dashless (n : Z) :
  0 <= n -> includes (String_number n) "-" = false.
Proof.
  intros Hn. unfold String_number.
  destruct n as [| p | p]; [reflexivity | | lia].
  cbn [Z.to_int NilZero.string_of_int NilZero.string_of_uint].
  generalize (Pos.to_uint p). intros d. unfold NilZero.string_of_uint.
  destruct d; [reflexivity | ..];
    match goal with
    | |- includes (NilEmpty.string_of_uint ?x) _ = _ =>
        apply (string_of_uint_dashless x)
    end.
Qed.

Lemma to_int_nonnil (n : Z) :
  Z.to_int n <> Decimal.Pos Decimal.Nil /\
  Z.to_int n <> Decimal.Neg Decimal.Nil.
Proof.
  destruct n as [| p | p]; cbn; split; try discriminate;
    intros [= E]; exact (DecimalPos.Unsigned.to_uint_nonnil p E).
Qed.

Lemma String_number_inj (n m : Z) :
  String_number n = String_number m -> n = m.
Proof.
  unfold String_number. intros H.
  apply DecimalZ.to_int_inj.
  pose proof (NilZero.isi (Z.to_int n) (proj1 (to_int_nonnil n))
                (proj2 (to_int_nonnil n))) as En.
  pose proof (NilZero.isi (Z.to_int m) (proj1 (to_int_nonnil m))
                (proj2 (to_int_nonnil m))) as Em.
  rewrite H in En. congruence.
Qed.

(** After a dash and digits, the part after the last dash is the
    digits. *)
Lemma after_last_dash_digits (a d : string) :
  includes d "-" = false ->
  after_last_dash (a ++ "-" ++ d) = d.
Proof.
  intros Hd. change ("-" ++ d)%string with (String "-"%char d).
  induction a as [| c a IH].
  - cbn [append after_last_dash]. rewrite Hd. reflexivity.
  - cbn [append after_last_dash].
    assert (Hin : includes (a ++ String "-"%char d) "-" = true)
      by (apply includes_iff; exists a, d; reflexivity).
    rewrite Hin. exact IH.
Qed.

Lemma NoDup_map_injective {A B : Type} (f : A -> B) (l : list A) :
  (forall x y, f x = f y -> x = y) -> NoDup l -> NoDup (List.map f l).
Proof.
  intros Hf Hl. induction Hl as [| x l Hx Hl IH]; cbn [List.map].
  - constructor.
  - constructor; [| exact IH].
    intros Hin. apply in_map_iff in Hin. destruct Hin as [y [E Hy]].
    apply Hf in E. subst y. contradiction.
Qed.

(** The ids of a batch, index after index. *)
Lemma batch_ids_NoDup (w : World) (n : nat) :
  NoDup
    (List.map
       (fun k => (String_number (clock w k) ++ "-"
                  ++ String_number (0 + Z.of_nat k))%string)
       (seq 0 n)).
Proof.
  apply NoDup_map_injective; [| apply seq_NoDup].
  intros j k E.
  apply (f_equal after_last_dash) in E.
  rewrite !after_last_dash_digits in E
    by (apply String_number_dashless; lia).
  apply String_number_inj in E. lia.
Qed.

(** X6. The seed generator returns as many records as it is asked for
    (none for a negative number); their ids differ from one another; each
    has a blank name and email and the target 100, a Black sheet exactly
    when its segregation is Terminated or Relocated, a Green sheet when,
    short of that, the excel sheet is in and one flag is set, and a Good
    performance when its count is above 60 and both flags are set; none is
    on leave or resigned. *)
Theorem generateSeedInterns_batch :
  forall (count : Z) (w : World),
    List.length (run (generateSeedInterns count) w) = Z.to_nat count /\
    NoDup (List.map id (run (generateSeedInterns count) w)) /\
    Forall seed_rules (run (generateSeedInterns count) w).
Proof.
  intros count w. unfold run, generateSeedInterns.
  split; [apply seed_loop_length |].
  split.
  - rewrite seed_loop_ids. cbn [List.map app]. apply batch_ids_NoDup.
  - apply (seed_loop_Forall (fun _ => True) seed_rules); auto.
    intros i w' _. apply seed_intern_rules.
Qed.

Example generateSeedInterns_ids :
  List.map id (run (generateSeedInterns 3) world98) = ["7-0"; "7-1"; "7-2"]%string /\
  run (generateSeedInterns (-4)) world98 = [].
Proof. split; vm_compute; reflexivity. Qed.

Lemma addRows_app (prev : list Intern) (w : World) :
  run (addRows prev) w = run (generateSeedInterns 50) w ++ prev /\
  List.length (run (generateSeedInterns 50) w) = 50%nat.
Proof.
  split.
  - unfold run, addRows, bind, ret.
    destruct (generateSeedInterns 50 w); reflexivity.
  - unfold run, generateSeedInterns. now rewrite seed_loop_length.
Qed.

(** X7. The button that adds rows puts exactly 50 new seed records in
    front of the store and leaves the records it held after them, unchanged
    and in order; the new records keep the rule that an exit segregation
    goes with a Black sheet. *)
Theorem addRows_prepends_fifty :
  forall (prev : list Intern) (w : World),
    firstn 50 (run (addRows prev) w) = run (generateSeedInterns 50) w /\
    skipn 50 (run (addRows prev) w) = prev /\
    List.length (run (addRows prev) w) = (50 + List.length prev)%nat /\
    Forall exit_is_black (firstn 50 (run (addRows prev) w)).
Proof.
  intros prev w.
  destruct (addRows_app prev w) as [E L].
  rewrite E.
  assert (F : firstn 50 (run (generateSeedInterns 50) w ++ prev)
              = run (generateSeedInterns 50) w).
  { rewrite <- L at 1. rewrite firstn_app, Nat.sub_diag, firstn_all.
    cbn [firstn]. apply app_nil_r. }
  rewrite F. split; [reflexivity |].
  split; [rewrite <- L at 1; rewrite skipn_app, Nat.sub_diag, skipn_all;
          reflexivity |].
  split; [rewrite length_app, L; reflexivity |].
  apply generateSeedInterns_exit_is_black.
Qed.

(** X8. In every store the page goes through, from the 550 seed records,
    by inline edits and by adding rows, the number of records is 550 plus
    a multiple of 50 (no record is ever removed), every target is 100 and
    every count is in [0, 1000]. *)
Theorem page_store_size_targets_counts :
  forall s : list Intern,
    page_store unit_world s ->
    (exists k : nat, List.length s = (550 + 50 * k)%nat) /\
    Forall (fun p => speakersTarget p = 100) s /\
    Forall count_in_range s.
Proof.
  assert (Seed : forall count w,
             unit_world w ->
             Forall (fun p => speakersTarget p = 100 /\ count_in_range p)
               (run (generateSeedInterns count) w)).
  { intros count w Hw. unfold run, generateSeedInterns.
    apply (seed_loop_Forall unit_world); auto using seed_intern_unit_world.
    intros i w' Hw'. split; [apply seed_intern_rules |].
    unfold count_in_range. rewrite seed_intern_count.
    destruct (Hw' 4%nat) as [H0 H1].
    pose proof (floor_of_unit_times_120 _ H0 H1). lia. }
  intros s Hs.
  assert (Size : exists k : nat, List.length s = (550 + 50 * k)%nat).
  { induction Hs as [w Hw | m s Hs [k IH] | w s Hw Hs [k IH]].
    - exists 0%nat. unfold run, initialInterns, generateSeedInterns.
      rewrite seed_loop_length. reflexivity.
    - exists k. rewrite mutate_map, length_map. exact IH.
    - exists (S k).
      destruct (addRows_app s w) as [E L]. rewrite E, length_app, L. lia. }
  assert (Both : Forall (fun p => speakersTarget p = 100 /\ count_in_range p) s).
  { clear Size. induction Hs as [w Hw | m s Hs IH | w s Hw Hs IH].
    - apply Seed. exact Hw.
    - rewrite mutate_map. rewrite Forall_forall in *.
      intros q Hq. apply in_map_iff in Hq. destruct Hq as [p [<- Hp]].
      destruct (IH p Hp) as [Ht Hc].
      split; [rewrite (proj2 (edit_record_id m p)); exact Ht |].
      unfold edit_record.
      destruct (String.eqb (id p) (target_id m)); [| exact Hc].
      unfold count_in_range in *.
      destruct m; cbn [rewrite_record]; try exact Hc.
      + destruct (_ && _); cbn; lia.
      + destruct (is_exit v); exact Hc.
    - rewrite (proj1 (addRows_app s w)). apply Forall_app. split; [apply Seed; exact Hw | exact IH]. }
  split; [exact Size |].
  rewrite Forall_forall in Both.
  split; apply Forall_forall; intros p Hp; apply (Both p Hp).
Qed.

Lemma world98_unit : unit_world world98.
Proof. intros n. cbn. split; [discriminate | reflexivity]. Qed.

Lemma page_store_size_targets_counts_witness :
  (exists k : nat,
     List.length (mutate (UpdateSpeakers "7-3" (5000 # 1))
                    (run (addRows (run initialInterns world98)) world98))
     = (550 + 50 * k)%nat) /\
  Forall (fun p => speakersTarget p = 100)
    (mutate (UpdateSpeakers "7-3" (5000 # 1))
       (run (addRows (run initialInterns world98)) world98)) /\
  Forall count_in_range
    (mutate (UpdateSpeakers "7-3" (5000 # 1))
       (run (addRows (run initialInterns world98)) world98)).
Proof.
  apply (page_store_size_targets_counts
           (mutate (UpdateSpeakers "7-3" (5000 # 1))
              (run (addRows (run initialInterns world98)) world98))).
  apply store_edit. apply store_addRows; [exact world98_unit |].
  apply store_initial. exact world98_unit.
Defined.

End SeedGenerator.

(* ================================================================== *)
(** * Variant A: the summary *)
(* ================================================================== *)

Section SummaryCounts.
Import JS Env Tracker.

(** Two tests of which exactly one holds of each record split the
    store. *)
Lemma count_of_split (f g : Intern -> bool) (s : list Intern) :
  (forall p, g p = negb (f p)) ->
  count_of f s + count_of g s = Z.of_nat (List.length s).
Proof.
  intros Hfg. unfold count_of.
  induction s as [| p s IH]; [reflexivity |].
  cbn [filter]. rewrite Hfg.
  destruct (f p); cbn [negb List.length]; lia.
Qed.

Lemma count_of_bounds (f : Intern -> bool) (s : list Intern) :
  0 <= count_of f s <= Z.of_nat (List.length s).
Proof.
  unfold count_of. pose proof (filter_length_le f s). lia.
Qed.

Lemma count_of_three (s : list Intern) :
  count_of (fun i => String.eqb (SheetStatus_str (sheetStatus i)) "Green") s
  + count_of (fun i => String.eqb (SheetStatus_str (sheetStatus i)) "Red") s
  + count_of (fun i => String.eqb (SheetStatus_str (sheetStatus i)) "Black") s
  = Z.of_nat (List.length s).
Proof.
  unfold count_of. induction s as [| p s IH]; [reflexivity |].
  cbn [filter].
  destruct (sheetStatus p); cbn [SheetStatus_str];
    repeat match goal with
           | |- context [String.eqb ?a ?b] =>
               let v := eval vm_compute in (String.eqb a b) in
               change (String.eqb a b) with v
           end;
    cbn [List.length]; lia.
Qed.

Lemma count_of_map (f : Intern -> bool) (g : Intern -> Intern)
    (s : list Intern) :
  (forall p, f (g p) = f p) -> count_of f (List.map g s) = count_of f s.
Proof.
  intros Hfg. unfold count_of. f_equal.
  induction s as [| p s IH]; [reflexivity |].
  cbn [List.map filter]. rewrite Hfg.
  destruct (f p); cbn [List.length]; congruence.
Qed.

(** X9. The counters of the summary add up: Green, Red and Black to the
    total, and so do Good and Weak; [inactive] is the number of records
    that are not Active (those on leave included), [excelNo] and
    [repurposedNo] are the numbers of records with No; [tasksCompleted] is
    between 0 and the total. *)
Theorem summary_counts_add_up :
  forall s : list Intern,
    total (summary s) = Z.of_nat (List.length s) /\
    green (summary s) + red (summary s) + black (summary s)
    = total (summary s) /\
    good (summary s) + weak (summary s) = total (summary s) /\
    inactive (summary s)
    = count_of (fun i => match statusActivity i with
                         | Active => false | Inactive | Leave => true end) s /\
    excelNo (summary s)
    = count_of (fun i => match excelSubmitted i with
                         | Yes => false | No => true end) s /\
    repurposedNo (summary s)
    = count_of (fun i => match dataRepurposed i with
                         | Yes => false | No => true end) s /\
    0 <= tasksCompleted (summary s) <= total (summary s).
Proof.
  intros s. unfold summary.
  cbn [total green red black good weak inactive excelNo repurposedNo
       tasksCompleted].
  split; [reflexivity |].
  split; [apply count_of_three |].
  split; [apply count_of_split; intros p; destruct (performance p); reflexivity |].
  split.
  { rewrite <- (count_of_split
                  (fun i => String.eqb (StatusActivity_str (statusActivity i))
                              "Active")
                  (fun i => match statusActivity i with
                            | Active => false | Inactive | Leave => true end) s)
      by (intros p; destruct (statusActivity p); reflexivity).
    lia. }
  split.
  { rewrite <- (count_of_split
                  (fun i => String.eqb (YesNo_str (excelSubmitted i)) "Yes")
                  (fun i => match excelSubmitted i with
                            | Yes => false | No => true end) s)
      by (intros p; destruct (excelSubmitted p); reflexivity).
    lia. }
  split.
  { rewrite <- (count_of_split
                  (fun i => String.eqb (YesNo_str (dataRepurposed i)) "Yes")
                  (fun i => match dataRepurposed i with
                            | Yes => false | No => true end) s)
      by (intros p; destruct (dataRepurposed p); reflexivity).
    lia. }
  apply count_of_bounds.
Qed.

(** X10. Editing names and emails changes no counter of the summary, and
    no inline edit changes its total. *)
Theorem summary_ignores_names :
  forall (i v : string) (m : Mutation) (s : list Intern),
    summary (setName i v s) = summary s /\
    summary (setEmail i v s) = summary s /\
    total (summary (mutate m s)) = total (summary s).
Proof.
  intros i v m s.
  assert (Hmap : forall g : Intern -> Intern,
             (forall p, statusActivity (g p) = statusActivity p /\
                        excelSubmitted (g p) = excelSubmitted p /\
                        aiChatAdded (g p) = aiChatAdded p /\
                        dataMiningGC (g p) = dataMiningGC p /\
                        speakersCount (g p) = speakersCount p /\
                        speakersTarget (g p) = speakersTarget p /\
                        performance (g p) = performance p /\
                        sheetStatus (g p) = sheetStatus p /\
                        dataRepurposed (g p) = dataRepurposed p) ->
             summary (List.map g s) = summary s).
  { intros g Hg. unfold summary. rewrite length_map.
    rewrite !(count_of_map _ g);
      try (intros p; destruct (Hg p) as (E1 & E2 & E3 & E4 & E5 & E6 & E7 & E8 & E9);
           cbv beta; congruence).
    reflexivity. }
  split; [| split].
  - unfold setName. apply Hmap. intros p.
    destruct (String.eqb (id p) i); repeat split.
  - unfold setEmail. apply Hmap. intros p.
    destruct (String.eqb (id p) i); repeat split.
  - unfold summary. cbn [total]. now rewrite mutate_map, length_map.
Qed.

Example summary_of_a_store :
  let s := setSegregation "b" (Some Terminated)
             (setStatusActivity "a" Leave (updateSpeakers "c" (100 # 1) five)) in
  (green (summary s), red (summary s), black (summary s)) = (1, 3, 1) /\
  (active (summary s), inactive (summary s)) = (4, 1) /\
  tasksCompleted (summary s) = 0.
Proof. repeat split. Qed.

End SummaryCounts.

(* ================================================================== *)
(** * How the filters compose *)
(* ================================================================== *)

Section FilterLaws.
Import JS.

Local Open Scope string_scope.

Lemma filter_filter_and {A : Type} (f g : A -> bool) (l : list A) :
  filter f (filter g l) = filter (fun x => g x && f x) l.
Proof.
  induction l as [| x l IH]; [reflexivity |].
  cbn [filter]. destruct (g x); cbn [filter andb]; rewrite IH; reflexivity.
Qed.

Lemma tracker_filtered_as_filter (R : list Tracker.Intern)
    (search filterSheet filterPerf : string) :
  Tracker.filtered_presort R search filterSheet filterPerf
  = filter (tracker_passes search filterSheet filterPerf) R.
Proof.
  unfold Tracker.filtered_presort. rewrite !filter_filter_and.
  apply filter_ext. intros i.
  unfold tracker_passes, passes_select, passes_search, segregation_text.
  rewrite !or_else_empty. cbn [existsb].
  destruct (Tracker.segregation i); cbn [option_map nullish];
    rewrite orb_false_r, orb_assoc, ?andb_assoc; reflexivity.
Qed.

Lemma crud_filtered_as_filter (R : list Crud.Intern)
    (search dept status0 : string) :
  Crud.filtered_presort R search dept status0
  = filter (crud_passes search dept status0) R.
Proof.
  unfold Crud.filtered_presort. rewrite !filter_filter_and.
  apply filter_ext. intros i.
  unfold crud_passes, passes_select, passes_search. cbn [existsb].
  rewrite orb_false_r, !orb_assoc, ?andb_assoc. reflexivity.
Qed.

Lemma passes_select_All (field : string) : passes_select "All" field = true.
Proof. reflexivity. Qed.

Lemma passes_search_empty (fields : list string) :
  passes_search "" fields = true.
Proof. reflexivity. Qed.

(** X11. Filtering twice is filtering once, and the search box and the
    selects can be applied one after the other, in either order: the
    result is that of applying them together.  This holds in both
    pages. *)
Theorem filters_compose :
  forall (RA : list Tracker.Intern) (RB : list Crud.Intern)
         (search filter1 filter2 : string),
    (Tracker.filtered_presort
       (Tracker.filtered_presort RA search filter1 filter2)
       search filter1 filter2
     = Tracker.filtered_presort RA search filter1 filter2 /\
     Tracker.filtered_presort
       (Tracker.filtered_presort RA search "All" "All") "" filter1 filter2
     = Tracker.filtered_presort RA search filter1 filter2 /\
     Tracker.filtered_presort
       (Tracker.filtered_presort RA "" filter1 filter2) search "All" "All"
     = Tracker.filtered_presort RA search filter1 filter2) /\
    (Crud.filtered_presort
       (Crud.filtered_presort RB search filter1 filter2)
       search filter1 filter2
     = Crud.filtered_presort RB search filter1 filter2 /\
     Crud.filtered_presort
       (Crud.filtered_presort RB search "All" "All") "" filter1 filter2
     = Crud.filtered_presort RB search filter1 filter2 /\
     Crud.filtered_presort
       (Crud.filtered_presort RB "" filter1 filter2) search "All" "All"
     = Crud.filtered_presort RB search filter1 filter2).
Proof.
  intros RA RB search filter1 filter2.
  rewrite !tracker_filtered_as_filter, !crud_filtered_as_filter.
  rewrite !filter_filter_and.
  repeat split; apply filter_ext; intros i;
    unfold tracker_passes, crud_passes;
    rewrite ?passes_select_All, ?passes_search_empty;
    repeat match goal with
           | |- context [passes_select ?a ?b] =>
               generalize (passes_select a b); intro
           | |- context [passes_search ?a ?b] =>
               generalize (passes_search a b); intro
           end;
    repeat match goal with b : bool |- _ => destruct b end; reflexivity.
Qed.

Lemma is_space_lower_char (c : ascii) : is_space (lower_char c) = is_space c.
Proof. destruct c as [[] [] [] [] [] [] [] []]; reflexivity. Qed.

Lemma lower_char_idempotent (c : ascii) :
  lower_char (lower_char c) = lower_char c.
Proof. destruct c as [[] [] [] [] [] [] [] []]; reflexivity. Qed.

Lemma toLowerCase_idempotent (s : string) :
  toLowerCase (toLowerCase s) = toLowerCase s.
Proof.
  induction s as [| c r IH]; [reflexivity |].
  cbn [toLowerCase]. now rewrite lower_char_idempotent, IH.
Qed.

Lemma trimStart_toLowerCase (s : string) :
  trimStart (toLowerCase s) = toLowerCase (trimStart s).
Proof.
  induction s as [| c r IH]; [reflexivity |].
  cbn [toLowerCase trimStart]. rewrite is_space_lower_char.
  destruct (is_space c); [exact IH | reflexivity].
Qed.

Lemma trimEnd_toLowerCase (s : string) :
  trimEnd (toLowerCase s) = toLowerCase (trimEnd s).
Proof.
  induction s as [| c r IH]; [reflexivity |].
  cbn [toLowerCase trimEnd]. rewrite IH, is_space_lower_char.
  destruct (trimEnd r); cbn [toLowerCase]; [| reflexivity].
  destruct (is_space c); reflexivity.
Qed.

Lemma trim_toLowerCase (s : string) :
  trim (toLowerCase s) = toLowerCase (trim s).
Proof. unfold trim. now rewrite trimStart_toLowerCase, trimEnd_toLowerCase. Qed.

Lemma trimEnd_cons (c : ascii) (r : string) :
  trimEnd (String c r)
  = match trimEnd r with
    | EmptyString => if is_space c then EmptyString else String c EmptyString
    | r' => String c r'
    end.
Proof. reflexivity. Qed.

Lemma trimEnd_idempotent (s : string) : trimEnd (trimEnd s) = trimEnd s.
Proof.
  induction s as [| c r IH]; [reflexivity |].
  rewrite trimEnd_cons. destruct (trimEnd r) as [| d r'] eqn:E.
  - destruct (is_space c) eqn:Hc; [reflexivity |].
    rewrite trimEnd_cons. cbn [trimEnd]. now rewrite Hc.
  - rewrite trimEnd_cons, IH. reflexivity.
Qed.

(** What [trimStart] leaves is empty or starts with a code unit that is
    not white space, and [trimEnd] keeps such a start. *)
Lemma trimStart_trimEnd_trimStart (s : string) :
  trimStart (trimEnd (trimStart s)) = trimEnd (trimStart s).
Proof.
  induction s as [| c r IH]; [reflexivity |].
  cbn [trimStart]. destruct (is_space c) eqn:Hc; [exact IH |].
  rewrite trimEnd_cons.
  destruct (trimEnd r); rewrite ?Hc; cbn [trimStart]; rewrite Hc; reflexivity.
Qed.

Lemma trim_idempotent (s : string) : trim (trim s) = trim s.
Proof.
  unfold trim. now rewrite trimStart_trimEnd_trimStart, trimEnd_idempotent.
Qed.

(** The query of a search text, and the texts with the same query. *)
Lemma query_of_lower_and_trimmed (s : string) :
  toLowerCase (trim (toLowerCase s)) = toLowerCase (trim s) /\
  toLowerCase (trim (trim s)) = toLowerCase (trim s).
Proof.
  split.
  - now rewrite trim_toLowerCase, toLowerCase_idempotent.
  - now rewrite trim_idempotent.
Qed.

(** X12. In both pages the search does not depend on the letter case of
    the text typed, nor on the white space around it: the lower-cased text
    and the trimmed text give the result of the text itself, and a text of
    white space alone gives the result of the empty text. *)
Theorem search_text_is_normalised :
  forall (RA : list Tracker.Intern) (RB : list Crud.Intern)
         (search filter1 filter2 : string),
    (Tracker.filtered_presort RA (toLowerCase search) filter1 filter2
     = Tracker.filtered_presort RA search filter1 filter2 /\
     Tracker.filtered_presort RA (trim search) filter1 filter2
     = Tracker.filtered_presort RA search filter1 filter2 /\
     (trim search = "" ->
      Tracker.filtered_presort RA search filter1 filter2
      = Tracker.filtered_presort RA "" filter1 filter2)) /\
    (Crud.filtered_presort RB (toLowerCase search) filter1 filter2
     = Crud.filtered_presort RB search filter1 filter2 /\
     Crud.filtered_presort RB (trim search) filter1 filter2
     = Crud.filtered_presort RB search filter1 filter2 /\
     (trim search = "" ->
      Crud.filtered_presort RB search filter1 filter2
      = Crud.filtered_presort RB "" filter1 filter2)).
Proof.
  intros RA RB search filter1 filter2.
  destruct (query_of_lower_and_trimmed search) as [Hl Ht].
  unfold Tracker.filtered_presort, Crud.filtered_presort.
  rewrite Hl, Ht.
  repeat split; intros E; rewrite E; reflexivity.
Qed.

Example search_text_examples :
  let R := Crud.seedInterns "2024-05-01" "2024-04-01" "2024-02-01" "2024-04-24" in
  List.map Crud.id (Crud.filtered_presort R "KAUR" "All" "All") = ["2"] /\
  List.map Crud.id (Crud.filtered_presort R "  kaur  " "All" "All") = ["2"] /\
  List.map Crud.id (Crud.filtered_presort R "ka ur" "All" "All") = [].
Proof. repeat split. Qed.

End FilterLaws.

(* ================================================================== *)
(** * Pages in and out of range *)
(* ================================================================== *)

Section PageRange.
Import JS Tracker.

Lemma firstn_Subsequence {A : Type} (n : nat) (l : list A) :
  Subsequence (firstn n l) l.
Proof.
  revert n. induction l as [| x l IH]; intros [| n]; cbn [firstn].
  - constructor.
  - constructor.
  - apply sub_drop. apply (IH 0%nat).
  - apply sub_keep. apply IH.
Qed.

Lemma skipn_Subsequence {A : Type} (n : nat) (l : list A) :
  Subsequence (skipn n l) l.
Proof.
  revert n. induction l as [| x l IH]; intros [| n]; cbn [skipn].
  - constructor.
  - constructor.
  - apply sub_keep. apply (IH 0%nat).
  - apply sub_drop. apply IH.
Qed.

(** X13. For a page number from 1 and a positive page size: a page past
    [totalPages] is empty (the page is not reset when the filters shrink
    the list); a page up to [totalPages] of a list that is not empty holds
    at least one record; no page holds more than the page size; and a page
    is a subsequence of the list. *)
Theorem pages_in_and_out_of_range :
  forall (l : list Intern) (p s : Z),
    1 <= p -> 0 < s ->
    (totalPages l s < p -> paginated l p s = []) /\
    (p <= totalPages l s -> l <> [] -> paginated l p s <> []) /\
    Z.of_nat (List.length (paginated l p s)) <= s /\
    Subsequence (paginated l p s) l.
Proof.
  intros l p s Hp Hs.
  pose proof (totalPages_bounds l s Hs) as [Ht1 [Hup [Hlo Hlo']]].
  pose proof (paginated_length l p s Hp Hs) as Hlen.
  split; [| split; [| split]].
  - intros Hout. apply length_zero_iff_nil.
    assert (Z.of_nat (List.length l) - (p - 1) * s <= 0) by nia. lia.
  - intros Hin Hne E. rewrite E in Hlen. cbn in Hlen.
    assert (Hl : Z.of_nat (List.length l) <> 0)
      by (destruct l; [contradiction | discriminate]).
    specialize (Hlo' Hl).
    assert (0 < Z.of_nat (List.length l) - (p - 1) * s) by nia. lia.
  - lia.
  - rewrite paginated_firstn_skipn by assumption.
    eapply Subsequence_trans; [apply firstn_Subsequence | apply skipn_Subsequence].
Qed.

Lemma pages_in_and_out_of_range_witness :
  paginated five 4 2 = [] /\ paginated five 3 2 <> [].
Proof.
  destruct (pages_in_and_out_of_range five 4 2 ltac:(lia) ltac:(lia))
    as [Hout _].
  destruct (pages_in_and_out_of_range five 3 2 ltac:(lia) ltac:(lia))
    as [_ [Hin _]].
  split.
  - apply Hout. vm_compute. reflexivity.
  - apply Hin; [vm_compute; discriminate | discriminate].
Defined.

(** X14. Between the first and the last page Prev and Next undo each
    other: from a page before the last, Next then Prev comes back, and
    from a page after the first, Prev then Next comes back; the page size
    is kept. *)
Theorem prev_and_next_undo_each_other :
  forall (t : Z) (st : Paging),
    1 <= page st <= t ->
    (page st < t -> onPrev (onNext t st) = st) /\
    (1 < page st -> onNext t (onPrev st) = st).
Proof.
  intros t [p s] Hp. cbn [page] in Hp.
  unfold onPrev, onNext, prevPage, nextPage, Math_max, Math_min.
  cbn [page pageSize].
  split; intros H; f_equal; lia.
Qed.

Lemma prev_and_next_undo_each_other_witness :
  onPrev (onNext 3 (mkPaging 2 50)) = mkPaging 2 50 /\
  onNext 3 (onPrev (mkPaging 2 50)) = mkPaging 2 50.
Proof.
  destruct (prev_and_next_undo_each_other 3 (mkPaging 2 50)
              ltac:(cbn; lia)) as [H1 H2].
  split; [apply H1 | apply H2]; cbn; lia.
Defined.

End PageRange.

(* ================================================================== *)
(** * Reading the exported file back *)
(* ================================================================== *)

Section CsvRoundTrip.
Import JS Common.

Local Open Scope string_scope.

Lemma join_cons_cons (sep x y : string) (l : list string) :
  join sep (x :: y :: l) = x ++ sep ++ join sep (y :: l).
Proof. reflexivity. Qed.

Lemma read_doubled (v rest acc : string) (row : list string)
    (rows : list (list string)) :
  read_from (double_quotes v ++ rest) InField acc row rows
  = read_from rest InField (acc ++ v) row rows.
Proof.
  revert acc. induction v as [| c v IH]; intros acc.
  - cbn [double_quotes append]. now rewrite append_nil_r.
  - cbn [double_quotes]. destruct (Ascii.eqb c dquote) eqn:Hc.
    + apply Ascii.eqb_eq in Hc. subst c.
      cbn [append read_from]. rewrite Ascii.eqb_refl.
      rewrite IH. unfold DQ. now rewrite append_assoc.
    + cbn [append read_from]. rewrite Hc, IH.
      now rewrite append_assoc.
Qed.

Lemma read_quoted (v rest : string) (row : list string)
    (rows : list (list string)) :
  read_from (quoted v ++ rest) AtField "" row rows
  = read_from rest AfterQuote v row rows.
Proof.
  unfold quoted, DQ. rewrite !append_assoc.
  cbn [append read_from]. rewrite Ascii.eqb_refl.
  rewrite read_doubled. cbn [append read_from].
  now rewrite Ascii.eqb_refl.
Qed.

Lemma csv_row_cons (v : string) (l : list string) :
  l <> [] -> csv_row (v :: l) = quoted v ++ "," ++ csv_row l.
Proof. destruct l; [contradiction | reflexivity]. Qed.

Lemma read_comma (rest field : string) (row : list string)
    (rows : list (list string)) :
  read_from ("," ++ rest) AfterQuote field row rows
  = read_from rest AtField "" (row ++ [field])%list rows.
Proof. reflexivity. Qed.

Lemma read_linefeed (rest field : string) (row : list string)
    (rows : list (list string)) :
  read_from (LF ++ rest) AfterQuote field row rows
  = read_from rest AtField "" [] (rows ++ [row ++ [field]])%list.
Proof. reflexivity. Qed.

Lemma read_row (values : list string) :
  forall (last_value rest : string) (row : list string)
         (rows : list (list string)),
    read_from (csv_row (values ++ [last_value])%list ++ rest) AtField "" row
      rows
    = read_from rest AfterQuote last_value (row ++ values)%list rows.
Proof.
  induction values as [| v values IH]; intros last_value rest row rows.
  - cbn [app]. unfold csv_row. cbn [List.map join String.concat].
    rewrite read_quoted, app_nil_r. reflexivity.
  - cbn [app]. rewrite csv_row_cons by (destruct values; discriminate).
    rewrite !append_assoc, read_quoted, read_comma, IH.
    now rewrite <- app_assoc.
Qed.

Lemma read_table (table : list (list string)) :
  forall rows : list (list string),
    table <> [] -> Forall (fun r => r <> []) table ->
    read_from (join LF (List.map csv_row table)) AtField "" [] rows
    = Some (rows ++ table)%list.
Proof.
  induction table as [| r table IH]; intros rows Hne Hrows; [contradiction |].
  inversion Hrows as [| r0 t0 Hr Ht]; subst.
  destruct (exists_last Hr) as [values [last_value ->]].
  destruct table as [| r2 table].
  - cbn [List.map join String.concat].
    rewrite <- (append_nil_r (csv_row (values ++ [last_value])%list)).
    rewrite read_row. reflexivity.
  - cbn [List.map]. rewrite join_cons_cons, read_row, read_linefeed.
    change (csv_row r2 :: List.map csv_row table)
      with (List.map csv_row (r2 :: table)).
    rewrite IH by (assumption || discriminate).
    now rewrite <- app_assoc.
Qed.

Lemma read_csv_document (columns : list string)
    (records : list (list string)) :
  columns <> [] -> Forall (fun r => r <> []) records ->
  read_csv (csv_document columns records) = Some (columns :: records).
Proof.
  intros Hc Hr. unfold read_csv, csv_document.
  rewrite read_table; [reflexivity | discriminate |].
  constructor; assumption.
Qed.

(** X15. The exported file can be read back, in both pages: reading it
    field by field (a comma or a line feed outside the double quotes ends
    a field or a row, two double quotes inside stand for one) gives the
    column names and then the display strings of the records, whatever
    commas, line feeds and double quotes the names hold.  So two lists of
    records with the same file have the same display strings. *)
Theorem exported_file_reads_back :
  forall (rowsA rowsA' : list Tracker.Intern) (rowsB rowsB' : list Crud.Intern)
         (today : string),
    read_csv (blob_content (Tracker.exportToCsv rowsA today))
    = Some (tracker_columns :: List.map tracker_display rowsA) /\
    read_csv (blob_content (Crud.exportToCsv rowsB today))
    = Some (crud_columns :: List.map crud_display rowsB) /\
    (Tracker.csv rowsA = Tracker.csv rowsA' ->
     List.map tracker_display rowsA = List.map tracker_display rowsA') /\
    (Crud.csv rowsB = Crud.csv rowsB' ->
     List.map crud_display rowsB = List.map crud_display rowsB').
Proof.
  intros rowsA rowsA' rowsB rowsB' today.
  assert (HA : forall rows,
             read_csv (Tracker.csv rows)
             = Some (tracker_columns :: List.map tracker_display rows)).
  { intros rows. rewrite tracker_csv_document.
    apply read_csv_document; [discriminate |].
    apply Forall_forall. intros r Hr. apply in_map_iff in Hr.
    destruct Hr as [i [<- _]]. discriminate. }
  assert (HB : forall rows,
             read_csv (Crud.csv rows)
             = Some (crud_columns :: List.map crud_display rows)).
  { intros rows. rewrite crud_csv_document.
    apply read_csv_document; [discriminate |].
    apply Forall_forall. intros r Hr. apply in_map_iff in Hr.
    destruct Hr as [i [<- _]]. discriminate. }
  split; [apply HA |]. split; [apply HB |].
  split; intros E.
  - pose proof (HA rowsA) as H1. rewrite E, HA in H1. now inversion H1.
  - pose proof (HB rowsB) as H1. rewrite E, HB in H1. now inversion H1.
Qed.

(** A name with a comma, a line feed and a double quote, read back. *)
Example read_csv_example :
  read_csv
    (Crud.csv
       [ Crud.mkIntern "9" ("Doe, " ++ DQ ++ "J" ++ DQ ++ LF ++ "Jr") "a@b.c"
           "HR" "" "2024-05-01" Crud.Offer 7 ])
  = Some [ crud_columns;
           [ "Doe, " ++ DQ ++ "J" ++ DQ ++ LF ++ "Jr"; "a@b.c"; "HR"; "";
             "2024-05-01"; "Offer"; "7" ] ] /\
  read_csv ("Name,Email") = None.
Proof. split; vm_compute; reflexivity. Qed.

End CsvRoundTrip.

(* ================================================================== *)
(** * Variant B: the counters, the average and the dialog *)
(* ================================================================== *)

Section CrudStats.
Import JS Crud.

Local Open Scope string_scope.

Lemma is_status_match (s : Status) (i : Intern) :
  is_status s i
  = match status i, s with
    | Active, Active | Offer, Offer
    | Completed, Completed | Offboarded, Offboarded => true
    | _, _ => false
    end.
Proof. unfold is_status. destruct (status i), s; reflexivity. Qed.

Lemma stats_counters (l : list Intern) :
  active (stats l) = with_status Active l /\
  offers (stats l) = with_status Offer l /\
  completed (stats l) = with_status Completed l.
Proof.
  unfold stats, with_status. cbn [active offers completed].
  repeat split; do 2 f_equal; apply filter_ext; intros i;
    apply is_status_match.
Qed.

Lemma with_status_cons (s : Status) (i : Intern) (l : list Intern) :
  with_status s (i :: l) = one_if_status (status i) s + with_status s l.
Proof.
  unfold with_status, one_if_status. cbn [filter].
  destruct (status i), s; cbn [List.length]; lia.
Qed.

(** X16. The three counters of the CRUD page and the number of offboarded
    records add up to the number of records; each counter is the number of
    records with its status. *)
Theorem stats_counters_add_up :
  forall l : list Intern,
    active (stats l) = with_status Active l /\
    offers (stats l) = with_status Offer l /\
    completed (stats l) = with_status Completed l /\
    active (stats l) + offers (stats l) + completed (stats l)
    + with_status Offboarded l
    = Z.of_nat (List.length l).
Proof.
  intros l. destruct (stats_counters l) as [-> [-> ->]].
  repeat split.
  induction l as [| i l IH]; [reflexivity |].
  rewrite !with_status_cons. cbn [List.length].
  destruct (status i); cbn [one_if_status]; lia.
Qed.

(** The reduce of [stats] keeps the partial sums between the multiples of
    two integer bounds of the scores: the exact sum of a partial sum and a
    score lies between two integers, which are doubles, and the rounding
    does not cross a double. *)
Lemma fold_between (lo hi : Z) (l : list Intern) (k : Z) (s : Q) :
  0 <= k ->
  Forall (fun j => (inject_Z lo <= score j <= inject_Z hi)%Q) l ->
  (k + Z.of_nat (List.length l)) * Z.abs lo < 2 ^ 53 ->
  (k + Z.of_nat (List.length l)) * Z.abs hi < 2 ^ 53 ->
  (inject_Z (k * lo) <= s <= inject_Z (k * hi))%Q ->
  exists t : Q,
    fold_left (fun a i => fl_add a (Finite (score i))) l (Finite s) = Finite t /\
    (inject_Z ((k + Z.of_nat (List.length l)) * lo) <= t
     <= inject_Z ((k + Z.of_nat (List.length l)) * hi))%Q.
Proof.
  intros Hk Hall. revert k s Hk.
  induction Hall as [| i l Hi _ IH]; intros k s Hk Blo Bhi Hs.
  - exists s. cbn [fold_left List.length]. rewrite Z.add_0_r. split; [reflexivity | exact Hs].
  - cbn [fold_left fl_add].
    cbn [List.length] in Blo, Bhi |- *.
    rewrite Nat2Z.inj_succ in Blo, Bhi |- *.
    set (n := Z.of_nat (List.length l)) in *.
    assert (Hn : 0 <= n) by (unfold n; lia).
    destruct Hi as [Hi1 Hi2]. destruct Hs as [Hs1 Hs2].
    destruct (round64_between (s + score i) ((k + 1) * lo) ((k + 1) * hi))
      as [y [Ry [Y1 Y2]]].
    + nia.
    + nia.
    + replace ((k + 1) * lo) with (k * lo + lo) by ring.
      rewrite inject_Z_plus. lra.
    + replace ((k + 1) * hi) with (k * hi + hi) by ring.
      rewrite inject_Z_plus. lra.
    + rewrite Ry.
      destruct (IH (k + 1) y ltac:(lia)) as [t [Ft Bt]].
      * replace (k + 1 + n) with (k + Z.succ n) by lia. exact Blo.
      * replace (k + 1 + n) with (k + Z.succ n) by lia. exact Bhi.
      * split; assumption.
      * exists t. split; [exact Ft |].
        replace (k + Z.succ n) with (k + 1 + n) by lia. exact Bt.
Qed.

(** X17. The average score of a store that is not empty lies between its
    scores, whole or not: when every score is in [lo, hi] for two integers
    that, times the number of records, stay below 2^53, the average is an
    integer of [lo, hi]; scores of 0 to 100 give an average of 0 to
    100. *)
Theorem avgScore_between_scores :
  forall (lo hi : Z) (i : Intern) (rest : list Intern),
    let n := Z.of_nat (List.length (i :: rest)) in
    Forall (fun j => (inject_Z lo <= score j <= inject_Z hi)%Q) (i :: rest) ->
    n * Z.abs lo < 2 ^ 53 -> n * Z.abs hi < 2 ^ 53 ->
    exists a : Z,
      avgScore (stats (i :: rest)) = Finite (inject_Z a) /\ lo <= a <= hi.
Proof.
  intros lo hi i rest n Hall Blo Bhi.
  assert (Hn : 0 < n) by (unfold n; cbn [List.length]; lia).
  destruct (fold_between lo hi (i :: rest) 0 0%Q ltac:(lia) Hall)
    as [t [Ft [T1 T2]]].
  - exact Blo.
  - exact Bhi.
  - cbn [Z.mul]. change (inject_Z 0) with 0%Q. lra.
  - fold n in T1, T2. cbn [Z.add] in T1, T2.
    assert (Pn : (0 < inject_Z n)%Q) by (rewrite <- (Zlt_Qlt 0); exact Hn).
    rewrite inject_Z_mult in T1, T2.
    assert (Q1 : (inject_Z lo <= t / inject_Z n)%Q).
    { apply Qle_shift_div_l; [exact Pn |]. lra. }
    assert (Q2 : (t / inject_Z n <= inject_Z hi)%Q).
    { apply Qle_shift_div_r; [exact Pn |]. lra. }
    destruct (round64_between (t / inject_Z n) lo hi) as [y [Ry [Y1 Y2]]];
      [nia | nia | exact Q1 | exact Q2 |].
    pose proof (positive_not_zero n Hn) as NZ.
    exists (Math_round y). split.
    + unfold stats, avgScore. fold n.
      destruct (Z.eqb_spec n 0) as [H0 | _]; [lia |].
      cbn [negb]. unfold score_sum. rewrite Ft. cbn [fl_div].
      rewrite NZ, Ry. reflexivity.
    + destruct (Math_round_nearest y) as [M1 M2].
      assert (A : (inject_Z (lo + -1) < inject_Z (Math_round y))%Q).
      { rewrite inject_Z_plus. change (inject_Z (-1)) with (-1)%Q. lra. }
      assert (B : (inject_Z (Math_round y) < inject_Z (hi + 1))%Q).
      { rewrite inject_Z_plus. change (inject_Z 1) with 1%Q. lra. }
      rewrite <- Zlt_Qlt in A, B. lia.
Qed.

Lemma avgScore_between_scores_witness :
  exists a : Z,
    avgScore (stats (seedInterns "d" "d" "d" "d")) = Finite (inject_Z a) /\
    75 <= a <= 92.
Proof.
  apply (avgScore_between_scores 75 92).
  - repeat constructor; discriminate.
  - reflexivity.
  - reflexivity.
Defined.

(** X18. A successful [addIntern] (name and email filled in) raises the
    counter of the status of the form by one and leaves the other
    counters; the store has one record more. *)
Theorem addIntern_moves_one_counter :
  forall (id0 today : string) (st : State),
    f_name (form st) <> "" -> f_email (form st) <> "" ->
    let st' := addIntern id0 today st in
    active (stats (interns st'))
    = active (stats (interns st)) + one_if_status (f_status (form st)) Active /\
    offers (stats (interns st'))
    = offers (stats (interns st)) + one_if_status (f_status (form st)) Offer /\
    completed (stats (interns st'))
    = completed (stats (interns st))
      + one_if_status (f_status (form st)) Completed /\
    List.length (interns st') = S (List.length (interns st)).
Proof.
  intros id0 today st Hn He st'.
  assert (E : interns st' = intern_of_form id0 (form st) :: interns st).
  { unfold st', addIntern.
    destruct (truthy (f_name (form st))) eqn:Tn;
      [| apply truthy_false_iff in Tn; contradiction].
    destruct (truthy (f_email (form st))) eqn:Te;
      [| apply truthy_false_iff in Te; contradiction].
    reflexivity. }
  rewrite E.
  destruct (stats_counters (intern_of_form id0 (form st) :: interns st))
    as [-> [-> ->]].
  destruct (stats_counters (interns st)) as [-> [-> ->]].
  rewrite !with_status_cons. cbn [status intern_of_form List.length].
  repeat split; lia.
Qed.

Lemma addIntern_moves_one_counter_witness :
  offers
    (stats
       (interns
          (addIntern "k3j9x2a" "2024-05-01"
             (mkState (seedInterns "d" "d" "d" "d") true
                (mkForm "Zoe" "zoe@x.org" "HR" "" "2024-05-02" Offer 70)))))
  = 2.
Proof.
  destruct (addIntern_moves_one_counter "k3j9x2a" "2024-05-01"
              (mkState (seedInterns "d" "d" "d" "d") true
                 (mkForm "Zoe" "zoe@x.org" "HR" "" "2024-05-02" Offer 70))
              ltac:(discriminate) ltac:(discriminate))
    as [_ [H _]].
  rewrite H. reflexivity.
Defined.

(** X19. [addIntern] cannot add the same form twice: after an
    [addIntern], successful or not, a second one changes nothing, for the
    form is blank after a success and was blank in name or email before a
    refusal. *)
Theorem addIntern_twice_adds_once :
  forall (id1 id2 today1 today2 : string) (st : State),
    addIntern id2 today2 (addIntern id1 today1 st) = addIntern id1 today1 st.
Proof.
  intros id1 id2 today1 today2 st.
  unfold addIntern at 2 3.
  destruct (negb (truthy (f_name (form st)))
            || negb (truthy (f_email (form st)))) eqn:G.
  - unfold addIntern. rewrite G. reflexivity.
  - unfold addIntern. reflexivity.
Qed.

End CrudStats.

(* ================================================================== *)
(** * initials *)
(* ================================================================== *)

Section Initials.
Import JS.

Lemma split_nonempty (s : string) (sep : ascii) : split s sep <> [].
Proof.
  destruct s as [| c r]; cbn [split]; [discriminate |].
  destruct (Ascii.eqb c sep); [discriminate |].
  destruct (split r sep); discriminate.
Qed.

(** The first code units of the pieces that are not empty are the starts
    of the words; those of the pieces after the first are the starts of
    the words after a word that is under way. *)
Lemma first_chars_word_starts (s : string) :
  filter_Boolean (List.map first_char (split s " "%char))
  = word_starts s true /\
  filter_Boolean (List.map first_char (tl (split s " "%char)))
  = word_starts s false.
Proof.
  induction s as [| c r [IHt IHf]]; [split; reflexivity |].
  cbn [split word_starts].
  destruct (Ascii.eqb c " "%char).
  - cbn [List.map first_char filter_Boolean tl]. split; exact IHt.
  - pose proof (split_nonempty r " "%char) as Hne.
    destruct (split r " "%char) as [| piece pieces]; [contradiction |].
    cbn [List.map first_char filter_Boolean tl] in *.
    split; [f_equal |]; exact IHf.
Qed.

Lemma join_letters (l : list ascii) :
  join "" (List.map (fun c => String c EmptyString) l)
  = string_of_list_ascii l.
Proof.
  unfold join. induction l as [| c l IH]; [reflexivity |].
  cbn [List.map]. rewrite concat_empty_cons, IH. reflexivity.
Qed.

Lemma slice_first_two {A : Type} (l : list A) : slice l 0 2 = firstn 2 l.
Proof. rewrite slice_firstn_skipn by lia. reflexivity. Qed.

(** X20. In both pages the initials are the upper case of the first code
    units of the first two words of the name, a word being a run of code
    units other than the space: spaces before, after and between the
    words, however many, do not count.  The two pages agree on every
    name; the test of the tracker for the empty name changes nothing. *)
Theorem initials_of_first_two_words :
  forall name0 : string,
    Tracker.initial_letters name0 = firstn 2 (word_starts name0 true) /\
    Crud.initials name0
    = toUpperCase (string_of_list_ascii (firstn 2 (word_starts name0 true))) /\
    Tracker.initials name0 = Crud.initials name0 /\
    (List.length (Crud.initial_letters name0) <= 2)%nat.
Proof.
  intros name0.
  assert (E : Crud.initial_letters name0 = firstn 2 (word_starts name0 true)).
  { unfold Crud.initial_letters.
    rewrite slice_first_two, (proj1 (first_chars_word_starts name0)).
    reflexivity. }
  split; [exact E |].
  split; [unfold Crud.initials; now rewrite join_letters, E |].
  split.
  - unfold Tracker.initials, Crud.initials.
    destruct (truthy name0) eqn:T; [reflexivity |].
    apply truthy_false_iff in T. subst name0. reflexivity.
  - rewrite E. apply firstn_le_length.
Qed.

Example initials_examples :
  Crud.initials "Ava Patel" = [65; 80] /\
  Crud.initials "  liam   johnson  de  la  cruz " = [76; 74] /\
  Tracker.initials "maya" = [77] /\
  Tracker.initials "   " = [] /\
  Crud.initials "" = [] /\
  Crud.initials (String "223"%char "ophie " ++ String "255"%char "ves")
  = [83; 83; 376].
Proof. repeat split. Qed.

End Initials.

(* ================================================================== *)
(** * The size of the hash *)
(* ================================================================== *)

Section HashSize.
Import JS Common.

Lemma Forall_firstn_of {A : Type} (P : A -> Prop) (k : nat) (l : list A) :
  Forall P l -> Forall P (firstn k l).
Proof.
  intros H. revert k. induction H as [| x l Hx _ IH]; intros [| k];
    cbn [firstn]; constructor; auto.
Qed.

(** X21. For a string of at most 2^21 code units (about two million),
    the hash of [stringToHue] stays below 2^53 in size at every turn of
    the loop, so that the sums and differences of the loop are exact in
    the numbers of JavaScript and the hue does not depend on the
    platform. *)
Theorem hash_stays_exact :
  forall (codes : list Z) (k : nat),
    Forall (fun c => 0 <= c < 2 ^ 16) codes ->
    Z.of_nat (List.length codes) <= 2 ^ 21 ->
    Z.abs (hash_codes (firstn k codes)) < 2 ^ 53.
Proof.
  intros codes k Hc Hlen.
  unfold hash_codes. rewrite fold_hash_step.
  pose proof (rolling_hash_growth (firstn k codes) 0
                (Forall_firstn_of _ k codes Hc)) as Hg.
  pose proof (length_firstn k codes) as Hk.
  change (2 ^ 31) with 2147483648 in Hg. change (2 ^ 16) with 65536 in Hg.
  change (2 ^ 21) with 2097152 in Hlen.
  change (2 ^ 53) with 9007199254740992.
  assert (Hn : Z.of_nat (List.length (firstn k codes)) <= 2097152) by lia.
  lia.
Qed.

Lemma hash_stays_exact_witness :
  Z.abs (hash_codes (firstn 6 (charCodes "Ava Patel"))) < 2 ^ 53.
Proof.
  apply (hash_stays_exact (charCodes "Ava Patel") 6).
  - change (charCodes "Ava Patel")
      with [65; 118; 97; 32; 80; 97; 116; 101; 108].
    change (2 ^ 16) with 65536.
    repeat (constructor; [lia |]). constructor.
  - change (Z.of_nat (List.length (charCodes "Ava Patel"))) with 9.
    change (2 ^ 21) with 2097152. lia.
Defined.

End HashSize.
